(** * Dockerfile optimizer: response extraction and request validation

    A shallow embedding of [app/main.py] (the HTTP handler [optimize]) and of
    [cli.py] ([optimize_dockerfile] and [main]), together with the parts of the
    Python runtime they call: [str.split], [str.strip], [str.splitlines],
    [str.upper], [str.startswith], [str.join] and [re.search].

    A Python [str] is a sequence of Unicode code points; it is modelled as a
    list of [N].  String constants of the source are written as Rocq string
    literals and converted with [str]. *)

From Stdlib Require Import String Ascii.
From Stdlib Require Import List NArith ZArith Bool Lia DecimalString.
Import ListNotations.

Set Implicit Arguments.

Local Open Scope N_scope.
Local Open Scope list_scope.

(* ===================================================================== *)
(** * The Python runtime: strings *)
(* ===================================================================== *)

Module Py.

Definition pystr := list N.

(** A source literal (ASCII only) as a Python string. *)
Definition str (s : string) : pystr :=
  List.map N_of_ascii (list_ascii_of_string s).

Definition LF : N := 10.
Definition CR : N := 13.
Definition BACKTICK : N := 96.

(** [Py_UNICODE_ISSPACE]: the characters removed by [str.strip()] and matched
    by [\s] in a [str] pattern. *)
Definition is_space (c : N) : bool :=
  ((9 <=? c) && (c <=? 13))
  || ((28 <=? c) && (c <=? 32))
  || (c =? 133) || (c =? 160) || (c =? 5760)
  || ((8192 <=? c) && (c <=? 8202))
  || (c =? 8232) || (c =? 8233) || (c =? 8239) || (c =? 8287) || (c =? 12288).

(** [Py_UNICODE_ISLINEBREAK]: the line boundaries of [str.splitlines()]:
    LF, VT, FF, CR, FS, GS, RS, NEL, LS and PS. *)
Definition is_linebreak (c : N) : bool :=
  ((10 <=? c) && (c <=? 13))
  || ((28 <=? c) && (c <=? 30))
  || (c =? 133) || (c =? 8232) || (c =? 8233).

(** [s.lstrip()], [s.rstrip()] and [s.strip()] with no argument. *)
Fixpoint lstrip (s : pystr) : pystr :=
  match s with
  | c :: s' => if is_space c then lstrip s' else s
  | [] => []
  end.

Definition rstrip (s : pystr) : pystr := rev (lstrip (rev s)).

Definition strip (s : pystr) : pystr := rstrip (lstrip s).

(** [s.startswith(p)]. *)
Fixpoint startswith (p s : pystr) : bool :=
  match p, s with
  | [], _ => true
  | c :: p', x :: s' => (x =? c) && startswith p' s'
  | _ :: _, [] => false
  end.

(** [s.find(sub)]: the index of the first occurrence, if any. *)
Fixpoint find (sub s : pystr) : option nat :=
  if startswith sub s then Some 0%nat
  else match s with
       | [] => None
       | _ :: s' => option_map S (find sub s')
       end.

(** Python exceptions that the modelled code can meet. *)
Inductive exn : Type :=
| ValueError
| AttributeError
| TypeError
| KeyError
| IndexError.

(** [s.split(sep, 1)]: at most one split, at the first occurrence of [sep];
    an empty separator raises [ValueError]. *)
Definition split1 (sep s : pystr) : exn + list pystr :=
  match sep with
  | [] => inl ValueError
  | _ =>
      match find sep s with
      | Some i => inr [firstn i s; skipn (i + length sep) s]
      | None => inr [s]
      end
  end.

(** [s.splitlines()]: a line is a maximal run of characters that are not
    line boundaries; CR LF is one boundary; a final boundary opens no
    further line. *)
Fixpoint splitlines (s : pystr) : list pystr :=
  match s with
  | [] => []
  | c :: s' =>
      if is_linebreak c then
        [] :: match s' with
              | d :: s'' =>
                  if (c =? CR) && (d =? LF) then splitlines s''
                  else splitlines s'
              | [] => []
              end
      else
        match splitlines s' with
        | [] => [[c]]
        | l :: ls => (c :: l) :: ls
        end
  end.

(** [sep.join(l)]. *)
Fixpoint join (sep : pystr) (l : list pystr) : pystr :=
  match l with
  | [] => []
  | [a] => a
  | a :: rest => a ++ sep ++ join sep rest
  end.

(** [str.upper()] replaces each character by its full upper-case mapping.
    The table holds ASCII and every character whose mapping contains an
    ASCII letter (sharp s, dotless i, long s, the characters with a
    decomposing upper case and the Latin ligatures).  The remaining
    characters map to text without ASCII letters; they are left as they
    are, which keeps [upper s] apart from any ASCII prefix exactly as
    Python does. *)
Definition upper_char (c : N) : pystr :=
  if (97 <=? c) && (c <=? 122) then [c - 32]
  else if c =? 223 then [83; 83]
  else if c =? 305 then [73]
  else if c =? 329 then [700; 78]
  else if c =? 383 then [83]
  else if c =? 496 then [74; 780]
  else if c =? 7830 then [72; 817]
  else if c =? 7831 then [84; 776]
  else if c =? 7832 then [87; 778]
  else if c =? 7833 then [89; 778]
  else if c =? 7834 then [65; 702]
  else if c =? 64256 then [70; 70]
  else if c =? 64257 then [70; 73]
  else if c =? 64258 then [70; 76]
  else if c =? 64259 then [70; 70; 73]
  else if c =? 64260 then [70; 70; 76]
  else if c =? 64261 then [83; 84]
  else if c =? 64262 then [83; 84]
  else [c].

Definition upper (s : pystr) : pystr := flat_map upper_char s.

(** [next((i for i, x in enumerate(l) if p(x)), None)]. *)
Fixpoint next_index (A : Type) (p : A -> bool) (l : list A) : option nat :=
  match l with
  | [] => None
  | x :: l' => if p x then Some 0%nat else option_map S (next_index p l')
  end.


(* ===================================================================== *)
(** * The Python runtime: regular expressions *)
(* ===================================================================== *)

(** [_sre.unicode_tolower], the simple lower-case mapping.  Only the code
    points that map into ASCII matter for a pattern of ASCII literals: the
    letters A to Z, U+0130 (capital I with dot above) and U+212A (Kelvin
    sign).  Every other code point maps outside ASCII or to itself. *)
Definition lower_char (c : N) : N :=
  if (65 <=? c) && (c <=? 90) then c + 32
  else if c =? 304 then 105
  else if c =? 8490 then 107
  else c.

(** The entries of [_ignorecase_fixes] for ASCII letters: i with dotless i,
    s with long s. *)
Definition ignorecase_fixes (lo : N) : list N :=
  if lo =? 105 then [305]
  else if lo =? 115 then [383]
  else [].

(** A literal [c] of the pattern against the character [x] of the subject,
    with or without [re.IGNORECASE]. *)
Definition chr_match (ignorecase : bool) (c x : N) : bool :=
  if ignorecase then
    let lo := lower_char c in
    existsb (N.eqb (lower_char x)) (lo :: ignorecase_fixes lo)
  else x =? c.

(** The fragment of the pattern language that the source uses: literals,
    character classes, concatenation, the greedy [?], greedy and lazy [*] on
    a class, and one capturing group. *)
Inductive regex : Type :=
| Eps
| Chr (c : N)
| Cls (p : N -> bool)
| Cat (r1 r2 : regex)
| Opt (r : regex)
| Star (p : N -> bool)
| StarLazy (p : N -> bool)
| Group (r : regex).

(** The outcome of a successful match: the text of group 1, when the group
    took part in the match. *)
Record Match : Type := { group1 : option pystr }.

Section Backtracking.

Variable A : Type.

(** [p*], greedy: take the longest run first, give characters back one
    at a time while the rest of the pattern fails. *)
Fixpoint star_greedy (p : N -> bool) (s : pystr)
         (k : pystr -> option A) : option A :=
  match s with
  | c :: s' =>
      if p c then
        match star_greedy p s' k with
        | Some a => Some a
        | None => k s
        end
      else k s
  | [] => k s
  end.

(** [p*?], lazy: try the rest of the pattern first, take one more
    character each time it fails. *)
Fixpoint star_lazy (p : N -> bool) (s : pystr)
         (k : pystr -> option A) : option A :=
  match k s with
  | Some a => Some a
  | None =>
      match s with
      | c :: s' => if p c then star_lazy p s' k else None
      | [] => None
      end
  end.

(** The backtracking matcher, in continuation-passing style: [k] is the
    rest of the pattern, applied to the rest of the subject and to the
    text captured so far. *)
Fixpoint rmatch (ignorecase : bool) (r : regex) (s : pystr)
         (g : option pystr)
         (k : pystr -> option pystr -> option A) : option A :=
  match r with
  | Eps => k s g
  | Chr c =>
      match s with
      | x :: s' => if chr_match ignorecase c x then k s' g else None
      | [] => None
      end
  | Cls p =>
      match s with
      | x :: s' => if p x then k s' g else None
      | [] => None
      end
  | Cat r1 r2 =>
      rmatch ignorecase r1 s g (fun s1 g1 => rmatch ignorecase r2 s1 g1 k)
  | Opt r1 =>
      match rmatch ignorecase r1 s g k with
      | Some a => Some a
      | None => k s g
      end
  | Star p => star_greedy p s (fun s' => k s' g)
  | StarLazy p => star_lazy p s (fun s' => k s' g)
  | Group r1 =>
      rmatch ignorecase r1 s g
             (fun s' _ => k s' (Some (firstn (length s - length s') s)))
  end.

End Backtracking.

(** [re.search(r, s, flags)]: the match at the leftmost position that has
    one. *)
Fixpoint search (ignorecase : bool) (r : regex) (s : pystr) : option Match :=
  match rmatch ignorecase r s None (fun _ g => Some {| group1 := g |}) with
  | Some m => Some m
  | None =>
      match s with
      | [] => None
      | _ :: s' => search ignorecase r s'
      end
  end.

(** A run of literal characters. *)
Fixpoint lit (s : pystr) : regex :=
  match s with
  | [] => Eps
  | c :: s' => Cat (Chr c) (lit s')
  end.

(** [m.group(1).strip()]: a group that took no part in the match is [None],
    which has no [strip]. *)
Definition group1_strip (m : Match) : exn + pystr :=
  match group1 m with
  | Some g => inr (strip g)
  | None => inl AttributeError
  end.

End Py.

(* ===================================================================== *)
(** * The Python runtime: values, exceptions and local state *)
(* ===================================================================== *)

Module PyVal.
Import Py.

(** What [resp.json()] can return.  A finite float is [m * 2^e]. *)
#[warnings="-register-all"]
Inductive pyval : Type :=
| PyNone
| PyBool (b : bool)
| PyInt (z : Z)
| PyFloat (m e : Z)
| PyStr (s : pystr)
| PyList (l : list pyval)
| PyDict (d : list (pystr * pyval)).

(** [bool(v)]. *)
Definition truthy (v : pyval) : bool :=
  match v with
  | PyNone => false
  | PyBool b => b
  | PyInt z => negb (z =? 0)%Z
  | PyFloat m _ => negb (m =? 0)%Z
  | PyStr s => match s with [] => false | _ => true end
  | PyList l => match l with [] => false | _ => true end
  | PyDict d => match d with [] => false | _ => true end
  end.

Definition pystr_eqb (a b : pystr) : bool :=
  if list_eq_dec N.eq_dec a b then true else false.

(** [d.get(key, default)] on the items of a dict (one item per key). *)
Fixpoint dict_get (d : list (pystr * pyval)) (key : pystr) (default : pyval)
  : pyval :=
  match d with
  | [] => default
  | (k, v) :: d' => if pystr_eqb k key then v else dict_get d' key default
  end.

(** [v.get(key, default)]: only a dict has the method. *)
Definition get (v : pyval) (key : pystr) (default : pyval) : exn + pyval :=
  match v with
  | PyDict d => inr (dict_get d key default)
  | _ => inl AttributeError
  end.

(** [v[0]]. *)
Definition item0 (v : pyval) : exn + pyval :=
  match v with
  | PyList (x :: _) => inr x
  | PyList [] => inl IndexError
  | PyStr (c :: _) => inr (PyStr [c])
  | PyStr [] => inl IndexError
  | PyDict _ => inl KeyError
  | _ => inl TypeError
  end.

(** [type(v).__name__]. *)
Definition type_name (v : pyval) : pystr :=
  match v with
  | PyNone => str "NoneType"
  | PyBool _ => str "bool"
  | PyInt _ => str "int"
  | PyFloat _ _ => str "float"
  | PyStr _ => str "str"
  | PyList _ => str "list"
  | PyDict _ => str "dict"
  end.

(** Statements that read and assign local variables of type [S] and may
    raise: the exception leaves the assignments made so far in place. *)
Definition M (S A : Type) : Type := S -> (exn + A) * S.

Definition ret {S A : Type} (a : A) : M S A := fun st => (inr a, st).

Definition bind {S A B : Type} (m : M S A) (f : A -> M S B) : M S B :=
  fun st =>
    match m st with
    | (inr a, st') => f a st'
    | (inl e, st') => (inl e, st')
    end.

Definition lift {S A : Type} (r : exn + A) : M S A := fun st => (r, st).

Definition assign {S : Type} (f : S -> S) : M S unit :=
  fun st => (inr tt, f st).

(** [try: body except Exception: handler]. *)
Definition try_except {S : Type} (body handler : M S unit) : M S unit :=
  fun st =>
    match body st with
    | (inr tt, st') => (inr tt, st')
    | (inl _, st') => handler st'
    end.

Declare Scope py_scope.
Delimit Scope py_scope with py.

Notation "x <- m ;; k" := (bind m (fun x => k))
  (at level 61, m at next level, right associativity) : py_scope.
Notation "m ;; k" := (bind m (fun _ => k))
  (at level 61, right associativity) : py_scope.

End PyVal.

(* ===================================================================== *)
(** * The outbound call to the chat-completion endpoint *)
(* ===================================================================== *)

Module Requests.
Import Py PyVal.

(** [Retry(total, backoff_factor, status_forcelist)] of the session. *)
Record Retry : Type := {
  total : Z;
  backoff_factor : pystr;
  status_forcelist : list Z
}.

(** One [post(url, headers=..., json=..., timeout=...)]. *)
Record Post : Type := {
  url : pystr;
  headers : list (pystr * pystr);
  payload_model : pystr;
  messages : list (pystr * pystr);
  stream : bool;
  temperature : pystr;
  max_tokens : option Z;
  timeout : Z;
  max_retries : option Retry
}.

(** What the call does: it raises [requests.exceptions.Timeout], raises
    another exception, or returns a response whose [json()] is a value or
    raises.  An exception is given by its text [str(exc)]. *)
Inductive Reply : Type :=
| Timeout (exc : pystr)
| Failure (exc : pystr)
| Response (status_code : Z) (text : pystr) (json : pystr + pyval).

(** [str(n)] of an integer. *)
Definition str_of_int (n : Z) : pystr :=
  str (NilZero.string_of_int (Z.to_int n)).

Definition SYSTEM_PROMPT : pystr :=
  str "You are an expert DevOps assistant specialized in Dockerfile optimization. "
  ++ str "Return your response in exactly this format:" ++ [LF; LF]
  ++ str "```dockerfile" ++ [LF] ++ str "[OPTIMIZED_DOCKERFILE_CONTENT]" ++ [LF]
  ++ str "```" ++ [LF; LF]
  ++ str "---SUMMARY---" ++ [LF]
  ++ str "[Brief summary of changes and optimizations made]" ++ [LF; LF]
  ++ str "Do not include any other text or explanations outside these sections.".

Definition URL : pystr := str "https://routellm.abacus.ai/v1/chat/completions".

Definition HEADERS (api_key : pystr) : list (pystr * pystr) :=
  [ (str "Authorization", str "Bearer " ++ api_key);
    (str "Content-Type", str "application/json") ].

(** The reading of [choices[0].message.content] that both entry points
    share: any exception on the way leaves [content] empty. *)
Definition first_content (data : pyval) : pyval :=
  let choices :=
    match data with
    | PyDict d => dict_get d (str "choices") (PyList [])
    | _ => PyList []
    end in
  if truthy choices then
    match item0 choices with
    | inr first =>
        match get first (str "message") (PyDict []) with
        | inr message =>
            match get message (str "content") (PyStr []) with
            | inr content => content
            | inl _ => PyStr []
            end
        | inl _ => PyStr []
        end
    | inl _ => PyStr []
    end
  else PyStr [].

(** The name of the variable that holds the credential. *)
Definition API_KEY : pystr := str "ABACUS_API_KEY".

(** The constants of the extraction. *)
Definition SUMMARY_SEP : pystr := str "---SUMMARY---".
Definition FENCE : pystr := str "```".
Definition TAG : pystr := str "dockerfile".
Definition FROM_ : pystr := str "FROM ".

(** [[\s\S]]: a space or not a space. *)
Definition any_char (c : N) : bool := is_space c || negb (is_space c).

(** The pattern [```(?:dockerfile)?\s*([\s\S]*?)```]. *)
Definition FENCE_RE : regex :=
  Cat (lit FENCE)
      (Cat (Opt (lit TAG))
           (Cat (Star is_space)
                (Cat (Group (StarLazy any_char)) (lit FENCE)))).

(** [ln.strip().upper().startswith("FROM ")]. *)
Definition is_from_line (ln : pystr) : bool :=
  startswith FROM_ (upper (strip ln)).

(** Methods and functions applied to a value that may not be a [str]. *)
Definition split_summary (content : pyval) : exn + list pystr :=
  match content with
  | PyStr s => split1 SUMMARY_SEP s
  | _ => inl AttributeError
  end.

Definition search_fence (v : pyval) : exn + option Match :=
  match v with
  | PyStr s => inr (search true FENCE_RE s)
  | _ => inl TypeError
  end.

Definition splitlines_of (v : pyval) : exn + list pystr :=
  match v with
  | PyStr s => inr (splitlines s)
  | _ => inl AttributeError
  end.

(** [parts[0]]. *)
Definition first_part (parts : list pystr) : exn + pystr :=
  match parts with
  | p :: _ => inr p
  | [] => inl IndexError
  end.

End Requests.

(* ===================================================================== *)
(** * app/main.py: the HTTP service *)
(* ===================================================================== *)

Module App.
Import Py PyVal Requests.
Local Open Scope py_scope.

Record OptimizeRequest : Type := { dockerfile : pystr }.

Record OptimizeResponse : Type := { result : pystr; summary : pystr }.

(** The exception of pydantic for a field that does not get a value of its
    declared type. *)
Inductive ValidationError : Type :=
| NotAString (field : pystr) (v : pyval).

(** [OptimizeResponse(result=..., summary=...)]: both fields are declared
    [str], and pydantic rejects a result that is no string. *)
Definition make_response (result : pyval) (summary : pystr)
  : ValidationError + OptimizeResponse :=
  match result with
  | PyStr s => inr {| result := s; summary := summary |}
  | v => inl (NotAString (str "result") v)
  end.

Record HTTPException : Type := { status_code : Z; detail : pystr }.

(** [GET /healthz]. *)
Definition healthcheck : list (pystr * pystr) := [(str "status", str "ok")].

(** The two variables that the extraction assigns. *)
Record locals : Type := {
  dockerfile_content : pyval;
  summary_content : pystr
}.

Definition set_dockerfile_content (v : pyval) (st : locals) : locals :=
  {| dockerfile_content := v; summary_content := summary_content st |}.

Definition set_summary_content (s : pystr) (st : locals) : locals :=
  {| dockerfile_content := dockerfile_content st; summary_content := s |}.

(** The body of the [try] of the extraction. *)
Definition extract_body (content : pyval) : M locals unit :=
  parts <- lift (split_summary content) ;;
  match parts with
  | [part0; part1] =>
      let dockerfile_section := strip part0 in
      assign (set_summary_content (strip part1)) ;;
      match search true FENCE_RE dockerfile_section with
      | Some m =>
          g <- lift (group1_strip m) ;;
          assign (set_dockerfile_content (PyStr g))
      | None =>
          let lines := splitlines dockerfile_section in
          match next_index is_from_line lines with
          | Some start_idx =>
              assign (set_dockerfile_content
                        (PyStr (strip (join [LF] (skipn start_idx lines)))))
          | None => ret tt
          end
      end
  | _ =>
      found <- lift (search_fence content) ;;
      match found with
      | Some m =>
          g <- lift (group1_strip m) ;;
          assign (set_dockerfile_content (PyStr g))
      | None =>
          lines <- lift (splitlines_of content) ;;
          match next_index is_from_line lines with
          | Some start_idx =>
              assign (set_dockerfile_content
                        (PyStr (strip (join [LF] (skipn start_idx lines)))))
          | None => ret tt
          end
      end
  end.

(** The extraction: both variables start empty, and any exception in the
    body puts the whole [content] into [dockerfile_content]. *)
Definition extract (content : pyval) : locals :=
  snd (try_except (extract_body content)
                  (assign (set_dockerfile_content content))
                  {| dockerfile_content := PyStr []; summary_content := [] |}).

Definition user_prompt (dockerfile : pystr) : pystr :=
  [LF]
  ++ str "Optimize the following Dockerfile for better performance, less layers, smaller image size, and faster build time."
  ++ [LF; LF]
  ++ str "Don't make any changes to the Dockerfile that are not necessary for optimization."
  ++ [LF; LF]
  ++ str "Original Dockerfile:" ++ [LF; LF]
  ++ str "```" ++ [LF] ++ dockerfile ++ [LF] ++ str "```" ++ [LF].

Definition request_of (api_key model dockerfile : pystr) : Post :=
  {| url := URL;
     headers := HEADERS api_key;
     payload_model := model;
     messages := [ (str "system", SYSTEM_PROMPT);
                   (str "user", user_prompt dockerfile) ];
     stream := false;
     temperature := str "0.2";
     max_tokens := None;
     timeout := 60;
     max_retries := None |}.

(** [os.getenv(name, default)]. *)
Definition getenv_or (getenv : pystr -> option pystr) (name default : pystr)
  : pystr :=
  match getenv name with
  | Some v => v
  | None => default
  end.

Definition EMPTY_RESPONSE : pystr := str "Empty response from Abacus ChatLLM".

(** [POST /api/optimize].  The handler reads the environment through
    [getenv] and reaches the endpoint through [post]; it raises an
    [HTTPException], or fails to build its response, or returns it; with the
    outcome come the outbound calls it made, in order. *)
Definition optimize (getenv : pystr -> option pystr) (post : Post -> Reply)
           (req : OptimizeRequest)
  : (HTTPException + (ValidationError + OptimizeResponse)) * list Post :=
  if negb (truthy (PyStr (dockerfile req)))
     || pystr_eqb (strip (dockerfile req)) []
  then (inl {| status_code := 400; detail := str "dockerfile is required" |},
        [])
  else
    let api_key := getenv API_KEY in
    match api_key with
    | None | Some [] =>
        (inl {| status_code := 500;
                detail := str "ABACUS_API_KEY is not set" |}, [])
    | Some key =>
        let model := getenv_or getenv (str "ABACUS_MODEL") (str "gpt-5-mini") in
        let call := request_of key model (dockerfile req) in
        match post call with
        | Timeout exc | Failure exc =>
            (inl {| status_code := 502;
                    detail := str "Abacus request failed: " ++ exc |},
             [call])
        | Response code text json =>
            if (400 <=? code)%Z
            then (inl {| status_code := code; detail := text |}, [call])
            else
              match json with
              | inl exc =>
                  (inl {| status_code := 502;
                          detail := str "Abacus request failed: " ++ exc |},
                   [call])
              | inr data =>
                  let content := first_content data in
                  if negb (truthy content)
                  then (inl {| status_code := 502;
                               detail := EMPTY_RESPONSE |}, [call])
                  else
                    let st := extract content in
                    (inr (make_response (dockerfile_content st)
                                        (summary_content st)), [call])
              end
        end
    end.

End App.

(* ===================================================================== *)
(** * cli.py: the command-line tool *)
(* ===================================================================== *)

Module Cli.
Import Py PyVal Requests.
Local Open Scope py_scope.

Record RuntimeError : Type := { message : pystr }.

Definition EMPTY_RESPONSE : pystr := str "Empty response from Abacus ChatLLM".

(** The body of the [try] of the extraction; its one variable is
    [dockerfile_content]. *)
Definition extract_body (content : pyval) : M pyval unit :=
  parts <- lift (split_summary content) ;;
  part0 <- lift (first_part parts) ;;
  let dockerfile_section := strip part0 in
  match search true FENCE_RE dockerfile_section with
  | Some m =>
      g <- lift (group1_strip m) ;;
      assign (fun _ => PyStr g)
  | None =>
      let lines := splitlines dockerfile_section in
      match next_index is_from_line lines with
      | Some start_idx =>
          assign (fun _ => PyStr (strip (join [LF] (skipn start_idx lines))))
      | None => ret tt
      end
  end.

Definition extract (content : pyval) : pyval :=
  snd (try_except (extract_body content) (assign (fun _ => content))
                  (PyStr [])).

Definition user_prompt (dockerfile_content : pystr) : pystr :=
  [LF]
  ++ str "Optimize the following Dockerfile for better performance, less layers, smaller image size, and faster build time."
  ++ [LF; LF]
  ++ str "Original Dockerfile:" ++ [LF; LF]
  ++ str "```" ++ [LF] ++ dockerfile_content ++ [LF] ++ str "```" ++ [LF].

Definition request_of (api_key model dockerfile_content : pystr) : Post :=
  {| url := URL;
     headers := HEADERS api_key;
     payload_model := model;
     messages := [ (str "system", SYSTEM_PROMPT);
                   (str "user", user_prompt dockerfile_content) ];
     stream := false;
     temperature := str "0.1";
     max_tokens := Some 2000%Z;
     timeout := 90;
     max_retries :=
       Some {| total := 2; backoff_factor := str "0.5";
               status_forcelist := [429; 500; 502; 503; 504]%Z |} |}.

(** [optimize_dockerfile(dockerfile_content, api_key, model)]: the
    optimized Dockerfile or a [RuntimeError], and the outbound calls. *)
Definition optimize_dockerfile (post : Post -> Reply)
           (dockerfile_content api_key model : pystr)
  : (RuntimeError + pyval) * list Post :=
  let call := request_of api_key model dockerfile_content in
  match post call with
  | Timeout _ =>
      (inl {| message :=
                str "Request timeout - try with a simpler Dockerfile" |},
       [call])
  | Failure exc =>
      (inl {| message := str "Abacus request failed: " ++ exc |}, [call])
  | Response code text json =>
      if (400 <=? code)%Z
      then (inl {| message :=
                     str "Abacus request failed: "
                     ++ str "API request failed: " ++ str_of_int code
                     ++ str " - " ++ text |}, [call])
      else
        match json with
        | inl exc =>
            (inl {| message := str "Abacus request failed: " ++ exc |},
             [call])
        | inr data =>
            let content := first_content data in
            if negb (truthy content)
            then (inl {| message := EMPTY_RESPONSE |}, [call])
            else (inr (extract content), [call])
        end
  end.

(** The parsed command line. *)
Record Args : Type := {
  input : option pystr;
  output : option pystr;
  model : pystr;
  api_key : option pystr
}.

Inductive FileRead : Type :=
| FileText (text : pystr)
| FileNotFound
| FileError (exc : pystr).

Inductive StdinRead : Type :=
| StdinText (text : pystr)
| KeyboardInterrupt
| StdinError (exc : pystr).

(** What [main] meets outside the process.  Opening the output file,
    writing to it and printing on the output stream give the text of the
    exception they raise, if any (a text that the stream cannot encode, a
    closed pipe). *)
Record World : Type := {
  getenv : pystr -> option pystr;
  post : Post -> Reply;
  read_file : pystr -> FileRead;
  read_stdin : StdinRead;
  open_write : pystr -> option pystr;
  write : pystr -> pystr -> option pystr;
  print_stdout : pyval -> option pystr
}.

(** What a run of [main] leaves behind: the exit code, the lines printed
    on the error stream, the values printed on the output stream, the
    outbound calls and the files written. *)
Record Run : Type := {
  exit_code : Z;
  stderr : list pystr;
  stdout : list pyval;
  posts : list Post;
  written : list (pystr * pystr)
}.

Definition exit1 (err : list pystr) (calls : list Post) : Run :=
  {| exit_code := 1; stderr := err; stdout := []; posts := calls;
     written := [] |}.

(** [a or b] on optional strings. *)
Definition or_else (a b : option pystr) : option pystr :=
  match a with
  | Some (_ :: _) => a
  | _ => b
  end.

Definition nonempty (a : option pystr) : option pystr :=
  match a with
  | Some (_ :: _) => a
  | _ => None
  end.

Definition OPTIMIZING : pystr := str "Optimizing Dockerfile...".

(** The part of [main] that reads the Dockerfile, from the file named by
    [--input] or from the standard input: the text, or the line put on
    the error stream before [sys.exit(1)]. *)
Definition read_input (w : World) (args : Args) : pystr + pystr :=
  match nonempty (input args) with
  | Some path =>
      match read_file w path with
      | FileText text => inr text
      | FileNotFound =>
          inl (str "Error: Input file '" ++ path ++ str "' not found")
      | FileError exc => inl (str "Error reading input file: " ++ exc)
      end
  | None =>
      match read_stdin w with
      | StdinText text => inr text
      | KeyboardInterrupt => inl ([LF] ++ str "Operation cancelled")
      | StdinError exc => inl (str "Error reading from stdin: " ++ exc)
      end
  end.

Definition MISSING_KEY : list pystr :=
  [ str "Error: ABACUS_API_KEY environment variable not set";
    str "Set it with: export ABACUS_API_KEY=your_key_here" ].

Definition main (w : World) (args : Args) : Run :=
  match nonempty (or_else (api_key args) (getenv w API_KEY)) with
  | None => exit1 MISSING_KEY []
  | Some key =>
      let read := read_input w args in
      match read with
      | inl err => exit1 [err] []
      | inr dockerfile_content =>
          if negb (truthy (PyStr (strip dockerfile_content)))
          then exit1 [str "Error: No Dockerfile content provided"] []
          else
            match optimize_dockerfile (post w) dockerfile_content key
                                      (model args) with
            | (inl e, calls) =>
                exit1 [OPTIMIZING; str "Error: " ++ message e] calls
            | (inr optimized, calls) =>
                match nonempty (output args) with
                | Some path =>
                    let failed :=
                      match open_write w path with
                      | Some exc => Some exc
                      | None =>
                          match optimized with
                          | PyStr text => write w path text
                          | v => Some (str "write() argument must be str, not "
                                       ++ type_name v)
                          end
                      end in
                    match failed with
                    | Some exc =>
                        exit1 [OPTIMIZING;
                               str "Error writing to output file: " ++ exc]
                              calls
                    | None =>
                        {| exit_code := 0;
                           stderr := [OPTIMIZING;
                                      str "Optimized Dockerfile written to: "
                                      ++ path];
                           stdout := [];
                           posts := calls;
                           written :=
                             match optimized with
                             | PyStr text => [(path, text)]
                             | _ => []
                             end |}
                    end
                | None =>
                    match print_stdout w optimized with
                    | Some exc =>
                        exit1 [OPTIMIZING; str "Error: " ++ exc] calls
                    | None =>
                        {| exit_code := 0; stderr := [OPTIMIZING];
                           stdout := [optimized]; posts := calls;
                           written := [] |}
                    end
                end
            end
      end
  end.

End Cli.

(* ===================================================================== *)
(** * Definitions used to state and prove the properties *)
(* ===================================================================== *)

Import Py PyVal Requests.

Unset Implicit Arguments.

(** A run of literals against the head of the subject: the rest of the
    subject when every character matches. *)
Fixpoint match_lit (ignorecase : bool) (p s : pystr) : option pystr :=
  match p with
  | [] => Some s
  | c :: p' =>
      match s with
      | x :: s' => if chr_match ignorecase c x then match_lit ignorecase p' s' else None
      | [] => None
      end
  end.

(** The text behind an opening fence: the language tag is dropped when it is
    there, then the white space, and the group runs up to the next fence. *)
Definition fence_body (rest : pystr) : option pystr :=
  let untagged :=
    match match_lit true TAG rest with
    | Some r => r
    | None => rest
    end in
  let body := lstrip untagged in
  match find FENCE body with
  | Some j => Some (firstn j body)
  | None => None
  end.

(** The group of the leftmost fenced block. *)
Fixpoint fence_search (s : pystr) : option pystr :=
  match (if startswith FENCE s then fence_body (skipn 3 s) else None) with
  | Some g => Some g
  | None =>
      match s with
      | [] => None
      | _ :: s' => fence_search s'
      end
  end.

(** The text taken from a list of lines: from the first FROM line on. *)
Definition tail_from (lines : list pystr) : pystr :=
  match next_index is_from_line lines with
  | Some start_idx => strip (join [LF] (skipn start_idx lines))
  | None => []
  end.

Definition from_lines (sec : pystr) : pystr := tail_from (splitlines sec).

(** The Dockerfile that both entry points take from a section of the
    reply: the group of the first fenced block; failing that, the lines from
    the first FROM line on; failing that, nothing. *)
Definition from_section (sec : pystr) : pystr :=
  match fence_search sec with
  | Some g => strip g
  | None => from_lines sec
  end.

(** The state in which both variables are still empty. *)
Definition App_init : App.locals :=
  {| App.dockerfile_content := PyStr []; App.summary_content := [] |}.

(** How one more white-space character at the end changes the lines: it
    changes nothing, or opens a last line of white space, or lengthens
    the last line by white space. *)
Inductive padded : list pystr -> list pystr -> Prop :=
| padded_nil : padded [] []
| padded_new w : forallb is_space w = true -> padded [] [w]
| padded_last l w : forallb is_space w = true -> padded [l] [l ++ w]
| padded_cons l L L' : padded L L' -> padded (l :: L) (l :: L').

(** The chain that both files run on a section: the group of the fence
    pattern, stripped; failing a match, the lines from the first FROM line
    on, joined by a line feed and stripped; failing that, the empty string
    that the variable was given at first. *)
Definition fallback_chain (sec : pystr) : exn + pystr :=
  match search true FENCE_RE sec with
  | Some m => group1_strip m
  | None =>
      inr match next_index is_from_line (splitlines sec) with
          | Some start_idx =>
              strip (join [LF] (skipn start_idx (splitlines sec)))
          | None => []
          end
  end.

(** The raw Dockerfile section of a reply: the text before the first
    delimiter, or the whole reply when there is none. *)
Definition section_of (raw : pystr) : pystr :=
  match find SUMMARY_SEP raw with
  | Some i => firstn i raw
  | None => raw
  end.

(** Whether a text begins with the language tag, in any letter case. *)
Definition begins_with_tag (X : pystr) : bool :=
  match match_lit true TAG X with
  | Some _ => true
  | None => false
  end.

(** Whether a text begins with the letters f, r, o, m, in either ASCII
    case, and a space. *)
Definition is_from_prefix (s : pystr) : bool :=
  match s with
  | a :: b :: c :: d :: e :: _ =>
      ((a =? 70) || (a =? 102)) && ((b =? 82) || (b =? 114))
      && ((c =? 79) || (c =? 111)) && ((d =? 77) || (d =? 109))
      && (e =? 32)
  | _ => false
  end.

(** A text whose only line boundaries are line feeds. *)
Definition only_LF (s : pystr) : bool :=
  forallb (fun c => negb (is_linebreak c) || (c =? LF)) s.



(** A reply whose two lines are separated by CR LF. *)
Definition crlf_reply : pystr := str "FROM a" ++ [CR; LF] ++ str "RUN b".

(** The reply of the end-to-end scenario of the specification. *)
Definition scenario_block : pystr :=
  [LF] ++ str "FROM node:20-slim" ++ [LF]
  ++ str "RUN apt-get update && apt-get install -y curl" ++ [LF].


Definition scenario_summary : pystr :=
  str "Combined RUN layers; pinned base image.".

(** A world for the examples: no variable is set, every call fails, the
    standard input holds the given text. *)
Definition bare_world (stdin : pystr) : Cli.World :=
  {| Cli.getenv := fun _ => None;
     Cli.post := fun _ => Failure [];
     Cli.read_file := fun _ => Cli.FileNotFound;
     Cli.read_stdin := Cli.StdinText stdin;
     Cli.open_write := fun _ => None;
     Cli.write := fun _ _ => None;
     Cli.print_stdout := fun _ => None |}.

Definition bare_args (key : option pystr) : Cli.Args :=
  {| Cli.input := None; Cli.output := None; Cli.model := str "gpt-5-mini";
     Cli.api_key := key |}.

(** A decoded response with an empty [choices] list, or whose first
    choice has a message with empty content. *)
Definition is_empty_reply (data : pyval) : Prop :=
  (exists d,
      data = PyDict d
      /\ dict_get d (str "choices") (PyList []) = PyList [])
  \/ (exists d first rest message content,
         data = PyDict d
         /\ dict_get d (str "choices") (PyList []) = PyList (first :: rest)
         /\ get first (str "message") (PyDict []) = inr message
         /\ get message (str "content") (PyStr []) = inr content
         /\ truthy content = false).

(** The call itself raised: a timeout or another failure of the
    transport. *)
Definition transport_error (r : Reply) : Prop :=
  match r with
  | Timeout _ | Failure _ => True
  | Response _ _ _ => False
  end.

(** A response whose [choices] list is empty. *)
Definition empty_choices : pyval := PyDict [(str "choices", PyList [])].

(** A response whose first choice has empty content. *)
Definition empty_content : pyval :=
  PyDict [(str "choices",
           PyList [PyDict [(str "message",
                            PyDict [(str "role", PyStr (str "assistant"));
                                    (str "content", PyStr [])])]])].

(** The model that the handler sends. *)
Definition service_model (getenv : pystr -> option pystr) : pystr :=
  App.getenv_or getenv (str "ABACUS_MODEL") (str "gpt-5-mini").

(** A body in the shape of a chat completion, with the given content. *)
Definition completion (content : pyval) : pyval :=
  PyDict [(str "id", PyStr (str "c-1"));
          (str "choices",
           PyList [PyDict [(str "index", PyInt 0);
                           (str "message",
                            PyDict [(str "role", PyStr (str "assistant"));
                                    (str "content", content)])]])].

(** The reply of the end-to-end scenario. *)
Definition scenario_reply : pystr :=
  FENCE ++ TAG ++ scenario_block ++ FENCE ++ [LF] ++ SUMMARY_SEP ++ [LF]
  ++ scenario_summary.

(** The key that [main] uses: the one of the command line when it is not
    empty, else the one of the environment when that is not empty. *)
Definition key_of (w : Cli.World) (args : Cli.Args) : option pystr :=
  Cli.nonempty (Cli.or_else (Cli.api_key args) (Cli.getenv w API_KEY)).

(** A content made of parts, as some endpoints send it. *)
Definition parts_content : pyval :=
  PyList [PyDict [(str "type", PyStr (str "text"));
                  (str "text", PyStr (str "FROM a"))]].

(** A world in which the key is set, the standard input holds a Dockerfile
    and the endpoint answers with the reply of the scenario. *)
Definition scenario_world : Cli.World :=
  {| Cli.getenv := fun name => if pystr_eqb name API_KEY
                               then Some (str "secret") else None;
     Cli.post := fun _ => Response 200 []
                                   (inr (completion (PyStr scenario_reply)));
     Cli.read_file := fun _ => Cli.FileNotFound;
     Cli.read_stdin := Cli.StdinText (str "FROM node");
     Cli.open_write := fun _ => None;
     Cli.write := fun _ _ => None;
     Cli.print_stdout := fun _ => None |}.

(** The world of the scenario with an output stream that cannot encode
    what it is given. *)
Definition ascii_stream_world : Cli.World :=
  {| Cli.getenv := Cli.getenv scenario_world;
     Cli.post := Cli.post scenario_world;
     Cli.read_file := Cli.read_file scenario_world;
     Cli.read_stdin := Cli.read_stdin scenario_world;
     Cli.open_write := Cli.open_write scenario_world;
     Cli.write := Cli.write scenario_world;
     Cli.print_stdout := fun _ => Some (str "codec can't encode") |}.

(* ===================================================================== *)
(** * Facts about the string operations *)
(* ===================================================================== *)

Section CharacterClasses.

Lemma is_space_spec c :
  is_space c = true <->
  (9 <= c <= 13 \/ 28 <= c <= 32 \/ c = 133 \/ c = 160 \/ c = 5760
   \/ 8192 <= c <= 8202 \/ c = 8232 \/ c = 8233 \/ c = 8239 \/ c = 8287
   \/ c = 12288).
Proof.
  unfold is_space.
  rewrite !orb_true_iff, !andb_true_iff, !N.leb_le, !N.eqb_eq. tauto.
Qed.

Lemma is_linebreak_spec c :
  is_linebreak c = true <->
  (10 <= c <= 13 \/ 28 <= c <= 30 \/ c = 133 \/ c = 8232 \/ c = 8233).
Proof.
  unfold is_linebreak.
  rewrite !orb_true_iff, !andb_true_iff, !N.leb_le, !N.eqb_eq. tauto.
Qed.

(** Every line boundary is white space. *)
Lemma linebreak_is_space c : is_linebreak c = true -> is_space c = true.
Proof.
  rewrite is_linebreak_spec, is_space_spec. lia.
Qed.

Lemma space_not_backtick c : is_space c = true -> c <> BACKTICK.
Proof.
  rewrite is_space_spec. unfold BACKTICK. lia.
Qed.

Lemma lower_char_cases x :
  (65 <= x <= 90 /\ lower_char x = x + 32)
  \/ (x = 304 /\ lower_char x = 105)
  \/ (x = 8490 /\ lower_char x = 107)
  \/ (~ 65 <= x <= 90 /\ x <> 304 /\ x <> 8490 /\ lower_char x = x).
Proof.
  unfold lower_char.
  destruct (N.leb_spec 65 x), (N.leb_spec x 90); simpl;
    destruct (N.eqb_spec x 304); destruct (N.eqb_spec x 8490); lia.
Qed.

(** Under [re.IGNORECASE] a backtick of the pattern matches a backtick
    only. *)
Lemma chr_match_backtick x : chr_match true BACKTICK x = (x =? BACKTICK).
Proof.
  unfold chr_match, BACKTICK.
  change (lower_char 96) with 96. change (ignorecase_fixes 96) with (@nil N).
  simpl. rewrite orb_false_r.
  destruct (lower_char_cases x) as [H|[H|[H|H]]];
    destruct (N.eqb_spec (lower_char x) 96), (N.eqb_spec x 96);
    try reflexivity; lia.
Qed.

(** A lower-case ASCII letter of the pattern matches neither white space
    nor a backtick, with or without case folding. *)
Lemma chr_match_letter t x :
  97 <= t <= 122 -> chr_match true t x = true ->
  is_space x = false /\ x <> BACKTICK.
Proof.
  intros Ht H. unfold chr_match in H.
  assert (Hlo : lower_char t = t)
    by (destruct (lower_char_cases t) as [?|[?|[?|?]]]; lia).
  rewrite Hlo in H. simpl in H.
  assert (Hx : lower_char x = t \/ lower_char x = 305 \/ lower_char x = 383).
  { apply orb_true_iff in H. destruct H as [H|H].
    - apply N.eqb_eq in H. lia.
    - unfold ignorecase_fixes in H.
      destruct (t =? 105); [|destruct (t =? 115)]; simpl in H;
        rewrite ?orb_false_r in H; try discriminate;
        apply N.eqb_eq in H; lia. }
  split.
  - destruct (is_space x) eqn:E; [|reflexivity].
    apply is_space_spec in E.
    destruct (lower_char_cases x) as [?|[?|[?|?]]]; lia.
  - unfold BACKTICK.
    destruct (lower_char_cases x) as [?|[?|[?|?]]]; lia.
Qed.

End CharacterClasses.

Section Stripping.

Lemma lstrip_app_stop a c b :
  is_space c = false -> lstrip (a ++ c :: b) = lstrip a ++ c :: b.
Proof.
  intros Hc. induction a as [|x a IH]; simpl.
  - now rewrite Hc.
  - destruct (is_space x); [exact IH | reflexivity].
Qed.

Lemma lstrip_head s :
  match lstrip s with
  | c :: _ => is_space c = false
  | [] => True
  end.
Proof.
  induction s as [|x s IH]; simpl; [exact I|].
  destruct (is_space x) eqn:E; [exact IH | exact E].
Qed.

Lemma lstrip_idem s : lstrip (lstrip s) = lstrip s.
Proof.
  pose proof (lstrip_head s) as H.
  destruct (lstrip s) as [|c t]; [reflexivity|]. simpl. now rewrite H.
Qed.

Lemma lstrip_cons_space c s : is_space c = true -> lstrip (c :: s) = lstrip s.
Proof. intros H. simpl. now rewrite H. Qed.

(** The white space that [lstrip] removes. *)
Lemma lstrip_decomp s :
  exists ws, s = ws ++ lstrip s /\ forallb is_space ws = true.
Proof.
  induction s as [|x s (ws & E & Hws)]; simpl.
  - exists []. now split.
  - destruct (is_space x) eqn:Ex.
    + exists (x :: ws). simpl. rewrite Ex, Hws. split; [now f_equal | reflexivity].
    + exists []. now split.
Qed.

Lemma lstrip_snoc_space s c :
  is_space c = true ->
  lstrip (s ++ [c]) = match lstrip s with [] => [] | t => t ++ [c] end.
Proof.
  intros Hc. induction s as [|x s IH]; simpl.
  - now rewrite Hc.
  - destruct (is_space x); [exact IH | reflexivity].
Qed.

Lemma rstrip_app_stop a c b :
  is_space c = false -> rstrip (a ++ c :: b) = a ++ c :: rstrip b.
Proof.
  intros Hc. unfold rstrip.
  rewrite rev_app_distr. simpl. rewrite <- app_assoc. simpl.
  rewrite lstrip_app_stop by exact Hc.
  rewrite rev_app_distr. simpl. rewrite rev_involutive.
  now rewrite <- app_assoc.
Qed.

Lemma rstrip_snoc_space s c : is_space c = true -> rstrip (s ++ [c]) = rstrip s.
Proof.
  intros Hc. unfold rstrip. rewrite rev_app_distr. simpl. now rewrite Hc.
Qed.

Lemma strip_cons_space c s : is_space c = true -> strip (c :: s) = strip s.
Proof. intros H. unfold strip. now rewrite lstrip_cons_space. Qed.

Lemma strip_snoc_space s c : is_space c = true -> strip (s ++ [c]) = strip s.
Proof.
  intros Hc. unfold strip. rewrite lstrip_snoc_space by exact Hc.
  destruct (lstrip s) as [|x t] eqn:E; [reflexivity|].
  now rewrite rstrip_snoc_space.
Qed.

Lemma strip_lstrip s : strip (lstrip s) = strip s.
Proof. unfold strip. now rewrite lstrip_idem. Qed.

(** Stripping white space that was put around a text changes nothing. *)
Lemma strip_app_spaces_l ws s :
  forallb is_space ws = true -> strip (ws ++ s) = strip s.
Proof.
  induction ws as [|c ws IH]; simpl; intros H; [reflexivity|].
  apply andb_true_iff in H. destruct H as [Hc Hws].
  rewrite strip_cons_space by exact Hc. now apply IH.
Qed.

Lemma strip_app_spaces_r ws s :
  forallb is_space ws = true -> strip (s ++ ws) = strip s.
Proof.
  revert s. induction ws as [|c ws IH]; simpl; intros s H.
  - now rewrite app_nil_r.
  - apply andb_true_iff in H. destruct H as [Hc Hws].
    change (c :: ws) with ([c] ++ ws). rewrite app_assoc.
    rewrite IH by exact Hws. now apply strip_snoc_space.
Qed.

(** A function that ignores one leading (trailing) white-space character
    ignores what [lstrip] ([rstrip]) removes. *)
Lemma lstrip_invariant (A : Type) (f : pystr -> A) :
  (forall c s, is_space c = true -> f (c :: s) = f s) ->
  forall s, f (lstrip s) = f s.
Proof.
  intros Hf s. induction s as [|x s IH]; simpl; [reflexivity|].
  destruct (is_space x) eqn:E; [|reflexivity].
  now rewrite IH, Hf.
Qed.

Lemma rstrip_invariant (A : Type) (f : pystr -> A) :
  (forall c s, is_space c = true -> f (s ++ [c]) = f s) ->
  forall s, f (rstrip s) = f s.
Proof.
  intros Hf s. unfold rstrip.
  rewrite <- (rev_involutive s) at 2.
  induction (rev s) as [|x r IH]; simpl; [reflexivity|].
  destruct (is_space x) eqn:E; [|reflexivity].
  now rewrite IH, Hf.
Qed.

Lemma strip_invariant (A : Type) (f : pystr -> A) :
  (forall c s, is_space c = true -> f (c :: s) = f s) ->
  (forall c s, is_space c = true -> f (s ++ [c]) = f s) ->
  forall s, f (strip s) = f s.
Proof.
  intros Hl Hr s. unfold strip.
  rewrite rstrip_invariant by exact Hr. now apply lstrip_invariant.
Qed.

Lemma strip_idem s : strip (strip s) = strip s.
Proof.
  apply strip_invariant; intros c t Hc.
  - now apply strip_cons_space.
  - now apply strip_snoc_space.
Qed.

End Stripping.

Section Finding.

Lemma startswith_app p s : startswith p (p ++ s) = true.
Proof.
  induction p as [|c p IH]; simpl; [reflexivity|].
  now rewrite N.eqb_refl, IH.
Qed.

Lemma startswith_split p s :
  startswith p s = true -> s = p ++ skipn (length p) s.
Proof.
  revert s. induction p as [|c p IH]; intros [|x s] H; simpl in *;
    try reflexivity; try discriminate.
  apply andb_true_iff in H. destruct H as [Hx Hp].
  apply N.eqb_eq in Hx. subst x. f_equal. now apply IH.
Qed.

Lemma startswith_length p s : startswith p s = true -> (length p <= length s)%nat.
Proof.
  intros H. rewrite (startswith_split _ _ H), length_app. lia.
Qed.

(** Text appended to a subject that is long enough does not change what
    it starts with. *)
Lemma startswith_app_long p s z :
  (length p <= length s)%nat -> startswith p (s ++ z) = startswith p s.
Proof.
  revert s. induction p as [|c p IH]; intros [|x s] H; simpl in *;
    try reflexivity; try lia.
  rewrite IH by lia. reflexivity.
Qed.

Lemma startswith_app_true p s z :
  startswith p s = true -> startswith p (s ++ z) = true.
Proof.
  intros H. rewrite startswith_app_long; [exact H|].
  now apply startswith_length.
Qed.

Lemma find_bound p s i : find p s = Some i -> (i + length p <= length s)%nat.
Proof.
  revert i. induction s as [|x s IH]; intros i; simpl.
  - destruct (startswith p []) eqn:E; [|discriminate].
    intros [= <-]. apply startswith_length in E. simpl in *. lia.
  - destruct (startswith p (x :: s)) eqn:E.
    + intros [= <-]. apply startswith_length in E. simpl in *. lia.
    + destruct (find p s) as [j|]; simpl; [|discriminate].
      intros [= <-]. specialize (IH j eq_refl). lia.
Qed.

Lemma find_split p s i :
  find p s = Some i -> s = firstn i s ++ p ++ skipn (i + length p) s.
Proof.
  revert i. induction s as [|x s IH]; intros i; simpl.
  - destruct (startswith p []) eqn:E; [|discriminate].
    intros [= <-]. simpl. now apply startswith_split in E.
  - destruct (startswith p (x :: s)) eqn:E.
    + intros [= <-]. simpl. now apply startswith_split in E.
    + destruct (find p s) as [j|] eqn:F; simpl; [|discriminate].
      intros [= <-]. simpl. f_equal. now apply IH.
Qed.

(** The first occurrence stays the first when text is appended. *)
Lemma find_app_l p s z i : find p s = Some i -> find p (s ++ z) = Some i.
Proof.
  revert i. induction s as [|x s IH]; intros i H.
  - simpl in H. destruct (startswith p []) eqn:E; [|discriminate].
    injection H as <-. destruct p; [|discriminate]. now destruct z.
  - pose proof (find_bound _ _ _ H) as Hb. simpl in H. simpl app.
    destruct (startswith p (x :: s)) eqn:E.
    + injection H as <-. simpl find.
      change (x :: s ++ z) with ((x :: s) ++ z).
      now rewrite (startswith_app_true _ _ _ E).
    + destruct (find p s) as [j|] eqn:F; simpl in H; [|discriminate].
      injection H as <-. simpl find.
      change (x :: s ++ z) with ((x :: s) ++ z).
      rewrite startswith_app_long, E by (simpl in *; lia).
      now rewrite (IH j eq_refl).
Qed.

(** A character that differs from the first one of the pattern is
    stepped over. *)
Lemma find_cons_other c p x s :
  x <> c -> find (c :: p) (x :: s) = option_map S (find (c :: p) s).
Proof.
  intros H. simpl. destruct (N.eqb_spec x c); [contradiction|].
  reflexivity.
Qed.

Lemma find_app_other c p t s :
  Forall (fun x => x <> c) t ->
  find (c :: p) (t ++ s) = option_map (Nat.add (length t)) (find (c :: p) s).
Proof.
  induction 1 as [|x t Hx Ht IH].
  - simpl app. simpl length. now destruct (find (c :: p) s).
  - simpl app. rewrite find_cons_other by exact Hx. rewrite IH.
    now destruct (find (c :: p) s).
Qed.

(** One more character that differs from every character of the pattern
    adds no occurrence. *)
Lemma startswith_snoc_other p s c :
  p <> [] -> Forall (fun x => x <> c) p ->
  startswith p (s ++ [c]) = startswith p s.
Proof.
  intros Hne Hp. revert s. induction Hp as [|y p Hy Hp IH]; [contradiction|].
  intros [|x s]; simpl.
  - destruct (N.eqb_spec c y); [congruence | reflexivity].
  - destruct p as [|y' p'].
    + reflexivity.
    + rewrite IH by discriminate. reflexivity.
Qed.

Lemma find_snoc_other p s c :
  p <> [] -> Forall (fun x => x <> c) p ->
  find p (s ++ [c]) = find p s.
Proof.
  intros Hne Hp. induction s as [|x s IH].
  - simpl app. unfold find.
    change [c] with ([] ++ [c]).
    rewrite (startswith_snoc_other p [] c Hne Hp).
    destruct p; [contradiction|]. reflexivity.
  - simpl app. simpl find.
    change (x :: s ++ [c]) with ((x :: s) ++ [c]).
    rewrite (startswith_snoc_other p (x :: s) c Hne Hp), IH. reflexivity.
Qed.

Lemma split1_absent sep s :
  sep <> [] -> find sep s = None -> split1 sep s = inr [s].
Proof.
  intros Hne H. unfold split1. destruct sep; [contradiction|].
  now rewrite H.
Qed.

Lemma split1_parts sep s :
  sep <> [] ->
  split1 sep s =
    inr match find sep s with
        | Some i => [firstn i s; skipn (i + length sep) s]
        | None => [s]
        end.
Proof.
  intros Hne. unfold split1. destruct sep; [contradiction|].
  now destruct (find _ s).
Qed.

(** [find] returns the first occurrence: the text before it and the
    pattern make up a prefix of the subject, and no occurrence starts
    earlier. *)
Lemma find_first p s i :
  find p s = Some i ->
  s = firstn i s ++ p ++ skipn (i + length p) s
  /\ forall a b, s = a ++ p ++ b -> (i <= length a)%nat.
Proof.
  intros H. split; [now apply find_split|].
  revert i H. induction s as [|x s IH]; intros i H a b E.
  - cbn [find] in H. destruct (startswith p []); [|discriminate].
    injection H as <-. lia.
  - cbn [find] in H. destruct (startswith p (x :: s)) eqn:S.
    + injection H as <-. lia.
    + destruct (find p s) as [j|] eqn:F; [|discriminate].
      injection H as <-. destruct a as [|y a].
      * simpl in E. rewrite E, startswith_app in S. discriminate.
      * simpl in E. injection E as _ E. simpl.
        specialize (IH j eq_refl a b E). lia.
Qed.

Lemma find_unfold p s :
  find p s =
    if startswith p s then Some 0%nat
    else match s with
         | [] => None
         | _ :: s' => option_map S (find p s')
         end.
Proof. destruct s; reflexivity. Qed.

(** [find] returns nothing only when the pattern does not occur. *)
Lemma find_absent p s :
  find p s = None -> forall a b, s <> a ++ p ++ b.
Proof.
  intros H a b E. subst s. revert H. induction a as [|x a IH].
  - simpl app. rewrite find_unfold, startswith_app. discriminate.
  - simpl app. rewrite find_unfold.
    destruct (startswith p (x :: a ++ p ++ b)); [discriminate|].
    destruct (find p (a ++ p ++ b)); [discriminate|]. intros _. now apply IH.
Qed.

(** No occurrence lies within the text before the first one. *)
Lemma find_before_none p s i :
  p <> [] -> find p s = Some i -> find p (firstn i s) = None.
Proof.
  intros Hne H. destruct (find p (firstn i s)) as [j|] eqn:F; [|reflexivity].
  pose proof (find_bound _ _ _ F) as Hb.
  pose proof (find_app_l _ _ (skipn i s) _ F) as G.
  rewrite firstn_skipn, H in G. injection G as ->.
  rewrite length_firstn in Hb. destruct p; [contradiction|]. simpl in Hb. lia.
Qed.

End Finding.

(* ===================================================================== *)
(** * What the fence pattern finds *)
(* ===================================================================== *)

Section FencePattern.

Variable A : Type.

Lemma rmatch_lit ic p s g (k : pystr -> option pystr -> option A) :
  rmatch ic (lit p) s g k =
    match match_lit ic p s with
    | Some r => k r g
    | None => None
    end.
Proof.
  revert s. induction p as [|c p IH]; intros s; simpl; [reflexivity|].
  destruct s as [|x s]; [reflexivity|].
  destruct (chr_match ic c x); [apply IH | reflexivity].
Qed.

Lemma match_lit_fence s :
  match_lit true FENCE s = if startswith FENCE s then Some (skipn 3 s) else None.
Proof.
  change FENCE with [BACKTICK; BACKTICK; BACKTICK].
  destruct s as [|a [|b [|c s]]]; cbn [match_lit startswith skipn];
    rewrite ?chr_match_backtick;
    repeat match goal with
           | |- context [?x =? BACKTICK] =>
               destruct (x =? BACKTICK);
               cbn [match_lit startswith skipn andb];
               rewrite ?chr_match_backtick
           end; reflexivity.
Qed.

(** What the case-folded tag consumed holds neither space nor backtick. *)
Lemma match_lit_letters p s r :
  Forall (fun t => 97 <= t <= 122) p ->
  match_lit true p s = Some r ->
  exists t, s = t ++ r /\ length t = length p
            /\ Forall (fun x => is_space x = false /\ x <> BACKTICK) t.
Proof.
  intros Hp. revert s.
  induction Hp as [|c p Hc Hp IH]; intros s H; cbn [match_lit] in H.
  - injection H as <-. exists []. repeat split. constructor.
  - destruct s as [|x s]; [discriminate|].
    destruct (chr_match true c x) eqn:E; [|discriminate].
    destruct (IH _ H) as (t & -> & Hl & Ht).
    exists (x :: t). repeat split; simpl; [now rewrite Hl|].
    constructor; [|exact Ht]. now apply chr_match_letter with (t := c).
Qed.

Lemma TAG_letters : Forall (fun t => 97 <= t <= 122) TAG.
Proof.
  unfold TAG, str. simpl. repeat constructor; lia.
Qed.


Lemma find_fence_cons_space c s :
  is_space c = true -> find FENCE (c :: s) = option_map S (find FENCE s).
Proof.
  intros H. apply find_cons_other. now apply space_not_backtick.
Qed.

Lemma find_fence_lstrip_none s :
  find FENCE (lstrip s) = None -> find FENCE s = None.
Proof.
  induction s as [|x s IH]; simpl lstrip; [trivial|].
  destruct (is_space x) eqn:E; [|trivial].
  intros H. rewrite find_fence_cons_space by exact E.
  now rewrite (IH H).
Qed.

(** The lazy star stops at the first place where the closing fence
    matches. *)
Lemma star_lazy_find (F : pystr -> A) s :
  star_lazy any_char s
            (fun t => if startswith FENCE t then Some (F t) else None) =
    match find FENCE s with
    | Some j => Some (F (skipn j s))
    | None => None
    end.
Proof.
  induction s as [|x s IH].
  - simpl. reflexivity.
  - cbn [star_lazy find].
    destruct (startswith FENCE (x :: s)); [reflexivity|].
    assert (Hany : any_char x = true) by (unfold any_char; apply orb_negb_r).
    rewrite Hany, IH. now destruct (find FENCE s).
Qed.

(** The greedy run of white space never has to give a character back:
    the rest of the pattern fails from every earlier place as well. *)
Lemma star_greedy_lstrip (k : pystr -> option A) s :
  (forall c t, is_space c = true -> k t = None -> k (c :: t) = None) ->
  star_greedy is_space s k = k (lstrip s).
Proof.
  intros Hk.
  assert (Hnone : forall t, k (lstrip t) = None -> k t = None).
  { induction t as [|c t IHt]; simpl; [trivial|].
    destruct (is_space c) eqn:E; [|trivial].
    intros H. apply Hk; [exact E | now apply IHt]. }
  induction s as [|x s IH]; simpl; [reflexivity|].
  destruct (is_space x) eqn:E; [|reflexivity].
  rewrite IH. destruct (k (lstrip s)) eqn:K; [reflexivity|].
  apply Hk; [exact E | now apply Hnone].
Qed.

End FencePattern.

Section FenceSearch.

Lemma star_lazy_ext (A : Type) p s (k k' : pystr -> option A) :
  (forall t, k t = k' t) -> star_lazy p s k = star_lazy p s k'.
Proof.
  intros H. induction s as [|x s IH]; simpl; rewrite H; [reflexivity|].
  now rewrite IH.
Qed.

Lemma star_greedy_ext (A : Type) p s (k k' : pystr -> option A) :
  (forall t, k t = k' t) -> star_greedy p s k = star_greedy p s k'.
Proof.
  intros H. induction s as [|x s IH]; simpl; rewrite H; [reflexivity|].
  now rewrite IH.
Qed.

Lemma find_fence_app_other t s :
  Forall (fun x => x <> BACKTICK) t ->
  find FENCE (t ++ s) = option_map (Nat.add (length t)) (find FENCE s).
Proof.
  intros H. exact (find_app_other BACKTICK [BACKTICK; BACKTICK] t s H).
Qed.

Lemma spaces_not_backtick ws :
  forallb is_space ws = true -> Forall (fun x => x <> BACKTICK) ws.
Proof.
  induction ws as [|c ws IH]; simpl; intros H; constructor;
    apply andb_true_iff in H; destruct H as [Hc Hws].
  - now apply space_not_backtick.
  - now apply IH.
Qed.

(** The end of a match: the match object with its group. *)
Let done : pystr -> option pystr -> option Match :=
  fun _ g => Some {| group1 := g |}.

Let found (g : pystr) : Match := {| group1 := Some g |}.

(** Group and closing fence, started at [s]. *)
Lemma group_and_close s g :
  rmatch true (Cat (Group (StarLazy any_char)) (lit FENCE)) s g done =
    match find FENCE s with
    | Some j => Some (found (firstn j s))
    | None => None
    end.
Proof.
  cbn [rmatch].
  rewrite star_lazy_ext with
    (k' := fun t =>
             if startswith FENCE t
             then Some (found (firstn (length s - length t) s))
             else None).
  2:{ intros t. rewrite rmatch_lit, match_lit_fence.
      now destruct (startswith FENCE t). }
  rewrite star_lazy_find.
  destruct (find FENCE s) as [j|] eqn:F; [|reflexivity].
  apply find_bound in F. rewrite length_skipn.
  do 3 f_equal. lia.
Qed.

(** White space, group and closing fence, started at [s]. *)
Lemma spaces_group_and_close s g :
  rmatch true
         (Cat (Star is_space)
              (Cat (Group (StarLazy any_char)) (lit FENCE))) s g done =
    match find FENCE (lstrip s) with
    | Some j => Some (found (firstn j (lstrip s)))
    | None => None
    end.
Proof.
  cbn [rmatch].
  rewrite star_greedy_ext with
    (k' := fun t =>
             match find FENCE t with
             | Some j => Some (found (firstn j t))
             | None => None
             end).
  2:{ intros t. apply (group_and_close t g). }
  apply star_greedy_lstrip.
  intros c t Hc H. rewrite find_fence_cons_space by exact Hc.
  now destruct (find FENCE t).
Qed.

Lemma spaces_group_and_close_none s g :
  rmatch true
         (Cat (Star is_space)
              (Cat (Group (StarLazy any_char)) (lit FENCE))) s g done = None
  <-> find FENCE s = None.
Proof.
  rewrite spaces_group_and_close. split.
  - intros H. apply find_fence_lstrip_none.
    now destruct (find FENCE (lstrip s)).
  - intros H. destruct (lstrip_decomp s) as (ws & E & Hws).
    rewrite E in H.
    rewrite find_fence_app_other in H by now apply spaces_not_backtick.
    now destruct (find FENCE (lstrip s)).
Qed.

(** One attempt of the whole pattern at the head of [s]: backtracking
    into the optional tag or into the white space never finds a match
    that the first choice missed. *)
Lemma rmatch_fence_re s :
  rmatch true FENCE_RE s None done =
    if startswith FENCE s
    then option_map found (fence_body (skipn 3 s))
    else None.
Proof.
  unfold FENCE_RE. cbn [rmatch].
  rewrite rmatch_lit, match_lit_fence.
  destruct (startswith FENCE s); [|reflexivity].
  set (rest := skipn 3 s). rewrite rmatch_lit.
  unfold fence_body.
  destruct (match_lit true TAG rest) as [r|] eqn:T.
  - pose proof (spaces_group_and_close r None) as Hr.
    cbn [rmatch] in Hr. rewrite Hr.
    destruct (find FENCE (lstrip r)) as [j|] eqn:F; [reflexivity|].
    (* the tag was there and no fence follows it: none follows the
       opening fence either *)
    pose proof (spaces_group_and_close_none rest None) as Hn.
    cbn [rmatch] in Hn. simpl option_map. apply Hn.
    destruct (match_lit_letters TAG rest r TAG_letters T)
      as (t & E & _ & Ht).
    rewrite E, find_fence_app_other.
    + rewrite (find_fence_lstrip_none _ F). reflexivity.
    + eapply Forall_impl; [|exact Ht]. simpl. tauto.
  - pose proof (spaces_group_and_close rest None) as Hr.
    cbn [rmatch] in Hr. rewrite Hr.
    now destruct (find FENCE (lstrip rest)).
Qed.

(** [re.search] with the fence pattern returns the group of the leftmost
    fenced block. *)
Theorem search_fence_re s :
  search true FENCE_RE s = option_map found (fence_search s).
Proof.
  induction s as [|x s IH]; cbn [search fence_search];
    fold done; rewrite rmatch_fence_re.
  - now destruct (startswith FENCE []).
  - destruct (startswith FENCE (x :: s)).
    + destruct (fence_body (skipn 3 (x :: s))); [reflexivity | exact IH].
    + exact IH.
Qed.

End FenceSearch.

(* ===================================================================== *)
(** * The extraction on a reply that is a string *)
(* ===================================================================== *)

Lemma SUMMARY_SEP_nonempty : SUMMARY_SEP <> [].
Proof. discriminate. Qed.

Lemma SUMMARY_SEP_length : length SUMMARY_SEP = 13%nat.
Proof. reflexivity. Qed.

(** The HTTP service, on a string: the body of the [try] raises nothing. *)
Lemma App_extract_body_str raw :
  App.extract_body (PyStr raw) App_init =
    (inr tt,
     match find SUMMARY_SEP raw with
     | Some i =>
         {| App.dockerfile_content :=
              PyStr (from_section (strip (firstn i raw)));
            App.summary_content := strip (skipn (i + 13) raw) |}
     | None =>
         {| App.dockerfile_content := PyStr (from_section raw);
            App.summary_content := [] |}
     end).
Proof.
  unfold App.extract_body, bind, lift, split_summary.
  rewrite (split1_parts _ raw SUMMARY_SEP_nonempty), SUMMARY_SEP_length.
  unfold from_section, from_lines, tail_from.
  destruct (find SUMMARY_SEP raw) as [i|].
  - cbn [assign]. rewrite search_fence_re.
    destruct (fence_search (strip (firstn i raw))) as [g|]; [reflexivity|].
    cbn [option_map].
    now destruct (next_index is_from_line (splitlines (strip (firstn i raw)))).
  - cbn [search_fence assign splitlines_of]. rewrite search_fence_re.
    destruct (fence_search raw) as [g|]; [reflexivity|].
    cbn [option_map].
    now destruct (next_index is_from_line (splitlines raw)).
Qed.

Lemma App_extract_str raw :
  App.extract (PyStr raw) =
    match find SUMMARY_SEP raw with
    | Some i =>
        {| App.dockerfile_content :=
             PyStr (from_section (strip (firstn i raw)));
           App.summary_content := strip (skipn (i + 13) raw) |}
    | None =>
        {| App.dockerfile_content := PyStr (from_section raw);
           App.summary_content := [] |}
    end.
Proof.
  unfold App.extract, try_except. fold App_init.
  now rewrite App_extract_body_str.
Qed.

(** The command-line tool, on a string. *)
Lemma Cli_extract_body_str raw :
  Cli.extract_body (PyStr raw) (PyStr []) =
    (inr tt,
     PyStr (from_section
              (strip match find SUMMARY_SEP raw with
                     | Some i => firstn i raw
                     | None => raw
                     end))).
Proof.
  unfold Cli.extract_body, bind, lift, split_summary.
  rewrite (split1_parts _ raw SUMMARY_SEP_nonempty).
  unfold from_section, from_lines, tail_from.
  destruct (find SUMMARY_SEP raw) as [i|]; cbn [first_part];
    rewrite search_fence_re;
    match goal with
    | |- context [fence_search ?s] =>
        destruct (fence_search s) as [g|]; [reflexivity|];
        cbn [option_map];
        now destruct (next_index is_from_line (splitlines s))
    end.
Qed.

Lemma Cli_extract_str raw :
  Cli.extract (PyStr raw) =
    PyStr (from_section
             (strip match find SUMMARY_SEP raw with
                    | Some i => firstn i raw
                    | None => raw
                    end)).
Proof.
  unfold Cli.extract, try_except. now rewrite Cli_extract_body_str.
Qed.

Lemma fallback_chain_eq sec : fallback_chain sec = inr (from_section sec).
Proof.
  unfold fallback_chain, from_section, from_lines, tail_from.
  rewrite search_fence_re. now destruct (fence_search sec).
Qed.

(* ===================================================================== *)
(** * White space around a section does not change what is extracted *)
(* ===================================================================== *)

Section FenceAndSpaces.

Lemma BACKTICK_not_space : is_space BACKTICK = false.
Proof. reflexivity. Qed.

Lemma fence_search_cons_space c s :
  is_space c = true -> fence_search (c :: s) = fence_search s.
Proof.
  intros Hc. cbn [fence_search].
  change FENCE with [BACKTICK; BACKTICK; BACKTICK]. cbn [startswith].
  destruct (N.eqb_spec c BACKTICK) as [->|_]; [|reflexivity].
  rewrite BACKTICK_not_space in Hc. discriminate.
Qed.

Lemma FENCE_not_space c :
  is_space c = true -> Forall (fun x => x <> c) FENCE.
Proof.
  intros Hc. apply space_not_backtick in Hc.
  change FENCE with [BACKTICK; BACKTICK; BACKTICK].
  repeat constructor; congruence.
Qed.

Lemma FENCE_nonempty : FENCE <> [].
Proof. discriminate. Qed.

Lemma match_lit_snoc_space p r c :
  Forall (fun t => 97 <= t <= 122) p -> is_space c = true ->
  match_lit true p (r ++ [c]) =
    option_map (fun x => x ++ [c]) (match_lit true p r).
Proof.
  intros Hp Hc. revert r.
  induction Hp as [|t p Ht Hp IH]; intros r; [reflexivity|].
  destruct r as [|x r]; cbn [match_lit app].
  - destruct (chr_match true t c) eqn:E; [|reflexivity].
    apply chr_match_letter in E; [|exact Ht]. destruct E. congruence.
  - destruct (chr_match true t x); [apply IH | reflexivity].
Qed.

Lemma group_snoc_space u c :
  is_space c = true ->
  match find FENCE (lstrip (u ++ [c])) with
  | Some j => Some (firstn j (lstrip (u ++ [c])))
  | None => None
  end =
  match find FENCE (lstrip u) with
  | Some j => Some (firstn j (lstrip u))
  | None => None
  end.
Proof.
  intros Hc. rewrite (lstrip_snoc_space u c Hc).
  destruct (lstrip u) as [|y t] eqn:L; [reflexivity|].
  rewrite (find_snoc_other FENCE (y :: t) c FENCE_nonempty
                           (FENCE_not_space c Hc)).
  destruct (find FENCE (y :: t)) as [j|] eqn:F; [|reflexivity].
  apply find_bound in F. rewrite firstn_app.
  replace (j - length (y :: t))%nat with 0%nat by lia.
  simpl firstn at 2. now rewrite app_nil_r.
Qed.

Lemma fence_body_snoc_space r c :
  is_space c = true -> fence_body (r ++ [c]) = fence_body r.
Proof.
  intros Hc. unfold fence_body. cbv zeta.
  rewrite (match_lit_snoc_space TAG r c TAG_letters Hc).
  destruct (match_lit true TAG r) as [v|]; cbn [option_map];
    now apply group_snoc_space.
Qed.

Lemma fence_search_snoc_space c s :
  is_space c = true -> fence_search (s ++ [c]) = fence_search s.
Proof.
  intros Hc. induction s as [|x s IH].
  - simpl app. rewrite fence_search_cons_space by exact Hc. reflexivity.
  - simpl app. cbn [fence_search]. rewrite IH.
    change (x :: s ++ [c]) with ((x :: s) ++ [c]).
    rewrite (startswith_snoc_other FENCE (x :: s) c FENCE_nonempty
                                   (FENCE_not_space c Hc)).
    destruct (startswith FENCE (x :: s)) eqn:E; [|reflexivity].
    apply startswith_length in E. change (length FENCE) with 3%nat in E.
    rewrite skipn_app.
    replace (3 - length (x :: s))%nat with 0%nat by lia.
    simpl skipn at 2. now rewrite fence_body_snoc_space.
Qed.

(** The fence pattern finds the same group in a text and in the text
    stripped. *)
Lemma fence_search_strip s : fence_search (strip s) = fence_search s.
Proof.
  apply strip_invariant; intros c t Hc.
  - now apply fence_search_cons_space.
  - now apply fence_search_snoc_space.
Qed.

End FenceAndSpaces.

Section LinesAndSpaces.

Lemma from_lines_tail_from s : from_lines s = tail_from (splitlines s).
Proof. reflexivity. Qed.

Lemma tail_from_cons l lines :
  tail_from (l :: lines) =
    if is_from_line l then strip (join [LF] (l :: lines))
    else tail_from lines.
Proof.
  unfold tail_from. cbn [next_index].
  destruct (is_from_line l); [reflexivity|].
  now destruct (next_index is_from_line lines).
Qed.

Lemma join_cons_cons sep a b rest :
  join sep (a :: b :: rest) = a ++ sep ++ join sep (b :: rest).
Proof. reflexivity. Qed.

Lemma join_cons_head sep c l rest :
  join sep ((c :: l) :: rest) = c :: join sep (l :: rest).
Proof. destruct rest; reflexivity. Qed.

Lemma is_from_line_cons_space c l :
  is_space c = true -> is_from_line (c :: l) = is_from_line l.
Proof. intros H. unfold is_from_line. now rewrite strip_cons_space. Qed.

Lemma is_from_line_app_spaces l w :
  forallb is_space w = true -> is_from_line (l ++ w) = is_from_line l.
Proof. intros H. unfold is_from_line. now rewrite strip_app_spaces_r. Qed.

Lemma is_from_line_spaces w :
  forallb is_space w = true -> is_from_line w = false.
Proof.
  intros H. change w with ([] ++ w).
  rewrite is_from_line_app_spaces by exact H. reflexivity.
Qed.

(** A line boundary at the head opens an empty line, and CR LF opens
    one only. *)
Lemma splitlines_cons_break c s :
  is_linebreak c = true ->
  splitlines (c :: s) = splitlines s \/ splitlines (c :: s) = [] :: splitlines s.
Proof.
  intros Hc. cbn [splitlines]. rewrite Hc.
  destruct s as [|d s]; [now right|].
  destruct ((c =? CR) && (d =? LF)) eqn:E; [|now right].
  left. apply andb_true_iff in E. destruct E as [_ Ed].
  apply N.eqb_eq in Ed. subst d. cbn [splitlines].
  change (is_linebreak LF) with true. cbv iota.
  destruct s as [|e s]; reflexivity.
Qed.

Lemma from_lines_cons_space c s :
  is_space c = true -> from_lines (c :: s) = from_lines s.
Proof.
  intros Hc. rewrite !from_lines_tail_from.
  destruct (is_linebreak c) eqn:B.
  - destruct (splitlines_cons_break c s B) as [-> | ->]; [reflexivity|].
    rewrite tail_from_cons. reflexivity.
  - cbn [splitlines]. rewrite B.
    destruct (splitlines s) as [|l ls].
    + rewrite tail_from_cons.
      rewrite (is_from_line_spaces [c]) by (simpl; now rewrite Hc).
      reflexivity.
    + rewrite !tail_from_cons, is_from_line_cons_space by exact Hc.
      destruct (is_from_line l); [|reflexivity].
      rewrite join_cons_head. now apply strip_cons_space.
Qed.

Lemma padded_refl L : padded L L.
Proof. induction L; constructor; assumption. Qed.

Lemma padded_first c L L' :
  padded L L' ->
  padded match L with [] => [[c]] | l :: ls => (c :: l) :: ls end
         match L' with [] => [[c]] | l :: ls => (c :: l) :: ls end.
Proof.
  intros H. destruct H as [|w Hw|l w Hw|l L L' H].
  - apply padded_refl.
  - exact (padded_last [c] w Hw).
  - exact (padded_last (c :: l) w Hw).
  - now apply padded_cons.
Qed.

Lemma splitlines_single_space c :
  is_space c = true ->
  exists w, splitlines [c] = [w] /\ forallb is_space w = true.
Proof.
  intros Hc. cbn [splitlines]. destruct (is_linebreak c).
  - exists []. now split.
  - exists [c]. split; [reflexivity|]. simpl. now rewrite Hc.
Qed.

Lemma splitlines_snoc_space c :
  is_space c = true ->
  forall n s, (length s <= n)%nat ->
              padded (splitlines s) (splitlines (s ++ [c])).
Proof.
  intros Hc. induction n as [|n IH]; intros s Hn.
  - destruct s; [|simpl in Hn; lia]. simpl app.
    destruct (splitlines_single_space c Hc) as (w & -> & Hw).
    now apply padded_new.
  - destruct s as [|x s].
    + simpl app.
      destruct (splitlines_single_space c Hc) as (w & -> & Hw).
      now apply padded_new.
    + simpl in Hn. simpl app. cbn [splitlines].
      destruct (is_linebreak x) eqn:B.
      * apply padded_cons. destruct s as [|d s].
        -- simpl app. cbv iota.
           destruct ((x =? CR) && (c =? LF)); [constructor|].
           destruct (splitlines_single_space c Hc) as (w & -> & Hw).
           now apply padded_new.
        -- simpl app. cbv iota.
           destruct ((x =? CR) && (d =? LF)).
           ++ apply IH. simpl in Hn. lia.
           ++ apply (IH (d :: s)). lia.
      * apply padded_first. apply IH. lia.
Qed.

Lemma padded_join L L' :
  padded L L' ->
  forall l, exists ws,
    forallb is_space ws = true
    /\ join [LF] (l :: L') = join [LF] (l :: L) ++ ws.
Proof.
  induction 1 as [|w Hw|l0 w Hw|l0 L L' H IH]; intros l.
  - exists []. split; [reflexivity | now rewrite app_nil_r].
  - exists (LF :: w). split; [exact Hw | reflexivity].
  - exists w. split; [exact Hw|].
    rewrite !join_cons_cons. cbn [join]. now rewrite <- !app_assoc.
  - destruct (IH l0) as (ws & Hws & E). exists ws. split; [exact Hws|].
    rewrite !join_cons_cons, E. now rewrite <- !app_assoc.
Qed.

Lemma padded_tail_from L L' : padded L L' -> tail_from L' = tail_from L.
Proof.
  induction 1 as [|w Hw|l w Hw|l L L' H IH].
  - reflexivity.
  - rewrite tail_from_cons, (is_from_line_spaces w Hw). reflexivity.
  - rewrite !tail_from_cons, (is_from_line_app_spaces l w Hw).
    destruct (is_from_line l); [|reflexivity].
    cbn [join]. now apply strip_app_spaces_r.
  - rewrite !tail_from_cons, IH.
    destruct (is_from_line l); [|reflexivity].
    destruct (padded_join L L' H l) as (ws & Hws & ->).
    now apply strip_app_spaces_r.
Qed.

Lemma from_lines_snoc_space c s :
  is_space c = true -> from_lines (s ++ [c]) = from_lines s.
Proof.
  intros Hc. rewrite !from_lines_tail_from.
  apply padded_tail_from.
  now apply (splitlines_snoc_space c Hc (length s)).
Qed.

(** The lines from the first FROM line on are the same in a text and in
    the text stripped. *)
Lemma from_lines_strip s : from_lines (strip s) = from_lines s.
Proof.
  apply strip_invariant; intros c t Hc.
  - now apply from_lines_cons_space.
  - now apply from_lines_snoc_space.
Qed.

Lemma from_section_strip s : from_section (strip s) = from_section s.
Proof.
  unfold from_section. now rewrite fence_search_strip, from_lines_strip.
Qed.

(** With line feeds as the only boundaries, joining the lines gives the
    text back, up to a last line feed. *)
Lemma splitlines_nil s : splitlines s = [] -> s = [].
Proof.
  destruct s as [|c s]; [reflexivity|]. cbn [splitlines].
  destruct (is_linebreak c); [discriminate|].
  destruct (splitlines s); discriminate.
Qed.

Lemma splitlines_cons_LF c s :
  is_linebreak c = true -> c = LF -> splitlines (c :: s) = [] :: splitlines s.
Proof.
  intros Hb ->. cbn [splitlines]. rewrite Hb. destruct s; reflexivity.
Qed.

Lemma only_LF_cons c s :
  only_LF (c :: s) = true ->
  (is_linebreak c = true -> c = LF) /\ only_LF s = true.
Proof.
  unfold only_LF. cbn [forallb]. intros H.
  apply andb_true_iff in H. destruct H as [Hc Hs]. split; [|exact Hs].
  intros Hb. rewrite Hb in Hc. simpl in Hc. now apply N.eqb_eq in Hc.
Qed.

Lemma join_splitlines_LF s :
  only_LF s = true ->
  exists t, s = join [LF] (splitlines s) ++ t /\ (t = [] \/ t = [LF]).
Proof.
  induction s as [|c s IH]; intros H.
  - exists []. now split; [|left].
  - apply only_LF_cons in H. destruct H as [Hc Hs].
    destruct (IH Hs) as (t & E & Ht).
    destruct (is_linebreak c) eqn:B.
    + rewrite (splitlines_cons_LF c s B (Hc eq_refl)), (Hc eq_refl).
      destruct (splitlines s) as [|l ls] eqn:L.
      * apply splitlines_nil in L. subst s. exists [LF]. now split; [|right].
      * exists t. split; [|exact Ht]. rewrite join_cons_cons.
        cbn [app]. f_equal. exact E.
    + cbn [splitlines]. rewrite B.
      destruct (splitlines s) as [|l ls] eqn:L.
      * apply splitlines_nil in L. subst s. exists []. now split; [|left].
      * exists t. split; [|exact Ht]. rewrite join_cons_head.
        cbn [app]. f_equal. exact E.
Qed.

Lemma strip_join_splitlines_LF s :
  only_LF s = true -> strip (join [LF] (splitlines s)) = strip s.
Proof.
  intros H. destruct (join_splitlines_LF s H) as (t & E & [-> | ->]).
  - now rewrite app_nil_r in E; rewrite <- E.
  - rewrite E at 2. symmetry. now apply strip_snoc_space.
Qed.

(** The text behind the first line. *)
Lemma splitlines_first_LF s l L :
  only_LF s = true -> splitlines s = l :: L ->
  exists pre suf,
    s = pre ++ suf /\ splitlines suf = L /\ only_LF suf = true.
Proof.
  revert l L. induction s as [|c s IH]; intros l L H E; [discriminate|].
  apply only_LF_cons in H. destruct H as [Hc Hs].
  destruct (is_linebreak c) eqn:B.
  - rewrite (splitlines_cons_LF c s B (Hc eq_refl)) in E.
    injection E as _ <-. exists [c], s. now repeat split.
  - cbn [splitlines] in E. rewrite B in E.
    destruct (splitlines s) as [|l' L'] eqn:S.
    + injection E as _ <-. exists (c :: s), []. rewrite app_nil_r.
      now repeat split.
    + injection E as _ <-.
      destruct (IH l' L' Hs eq_refl) as (pre & suf & -> & Hsuf & Hlf).
      exists (c :: pre), suf. now repeat split.
Qed.

(** The lines from line [i] on are the lines of a tail of the text. *)
Lemma splitlines_skipn_LF i :
  forall s, only_LF s = true ->
            exists pre suf,
              s = pre ++ suf /\ splitlines suf = skipn i (splitlines s)
              /\ only_LF suf = true.
Proof.
  induction i as [|i IH]; intros s H.
  - exists [], s. now repeat split.
  - destruct (splitlines s) as [|l L] eqn:E.
    + exists s, []. rewrite app_nil_r. now repeat split.
    + destruct (splitlines_first_LF s l L H E) as (pre1 & suf1 & -> & <- & H1).
      destruct (IH suf1 H1) as (pre & suf & -> & Hsuf & Hlf).
      exists (pre1 ++ pre), suf. rewrite <- app_assoc. now repeat split.
Qed.

End LinesAndSpaces.

(* ===================================================================== *)
(** * A fenced block in a section *)
(* ===================================================================== *)

Section FencedBlock.

(** When the first fence of a text opens a block that is closed, the
    search returns the group of that block. *)
Lemma fence_search_first s i g :
  find FENCE s = Some i ->
  fence_body (skipn (i + 3) s) = Some g ->
  fence_search s = Some g.
Proof.
  revert i. induction s as [|x s IH]; intros i F B.
  - discriminate.
  - cbn [find] in F. cbn [fence_search].
    destruct (startswith FENCE (x :: s)).
    + injection F as <-. simpl Nat.add in B. now rewrite B.
    + destruct (find FENCE s) as [j|]; [|discriminate].
      injection F as <-. apply (IH j eq_refl). exact B.
Qed.

(** The group of a block whose text [X] holds no fence of its own. *)
Lemma group_of_block X post :
  find FENCE (X ++ FENCE) = Some (length X) ->
  match find FENCE (lstrip (X ++ FENCE ++ post)) with
  | Some j => Some (firstn j (lstrip (X ++ FENCE ++ post)))
  | None => None
  end = Some (lstrip X).
Proof.
  intros H.
  change (FENCE ++ post) with (BACKTICK :: [BACKTICK; BACKTICK] ++ post).
  rewrite lstrip_app_stop by apply BACKTICK_not_space.
  change (BACKTICK :: [BACKTICK; BACKTICK] ++ post) with (FENCE ++ post).
  destruct (lstrip_decomp X) as (ws & E & Hws).
  rewrite E in H at 1. rewrite <- app_assoc in H.
  rewrite find_fence_app_other in H by now apply spaces_not_backtick.
  assert (L : length X = (length ws + length (lstrip X))%nat)
    by (rewrite E at 1; apply length_app).
  destruct (find FENCE (lstrip X ++ FENCE)) as [j|] eqn:F; [|discriminate].
  simpl in H. injection H as H.
  assert (j = length (lstrip X)) by lia. subst j.
  rewrite app_assoc, (find_app_l _ _ post _ F).
  rewrite <- app_assoc, firstn_app, firstn_all, Nat.sub_diag.
  simpl firstn. now rewrite app_nil_r.
Qed.


(** A text that does not begin with the tag still does not when a fence
    follows it. *)
Lemma match_lit_app_fence p X post :
  Forall (fun t => 97 <= t <= 122) p ->
  match_lit true p X = None ->
  match_lit true p (X ++ FENCE ++ post) = None.
Proof.
  intros Hp. revert X. induction Hp as [|t p Ht Hp IH]; intros X H.
  - discriminate.
  - destruct X as [|x X]; cbn [match_lit app] in *.
    + change (FENCE ++ post) with (BACKTICK :: [BACKTICK; BACKTICK] ++ post).
      cbv iota.
      destruct (chr_match true t BACKTICK) eqn:E; [|reflexivity].
      apply chr_match_letter in E; [|exact Ht]. now destruct E.
    + destruct (chr_match true t x); [now apply IH | reflexivity].
Qed.

(** A block opened by a bare fence. *)
Lemma fence_body_untagged X post :
  match_lit true TAG X = None ->
  find FENCE (X ++ FENCE) = Some (length X) ->
  fence_body (X ++ FENCE ++ post) = Some (lstrip X).
Proof.
  intros T H. unfold fence_body. cbv zeta.
  rewrite (match_lit_app_fence TAG X post TAG_letters T).
  now apply group_of_block.
Qed.

Lemma skipn_app_exact (pre rest : pystr) n :
  n = length pre -> skipn n (pre ++ rest) = rest.
Proof.
  intros ->. rewrite skipn_app, skipn_all, Nat.sub_diag. reflexivity.
Qed.

(** The first fence of [pre ++ FENCE ++ rest] is the one shown, when
    [pre] holds none. *)
Lemma fence_search_block pre rest g :
  find FENCE (pre ++ FENCE) = Some (length pre) ->
  fence_body rest = Some g ->
  fence_search (pre ++ FENCE ++ rest) = Some g.
Proof.
  intros P B. apply fence_search_first with (i := length pre).
  - rewrite app_assoc. now apply find_app_l.
  - rewrite app_assoc. rewrite skipn_app_exact; [exact B|].
    rewrite length_app. reflexivity.
Qed.

End FencedBlock.

(* ===================================================================== *)
(** * The extraction: the properties of the specification *)
(* ===================================================================== *)




(** C3.  A reply without the delimiter that holds a fenced block with the
    text [X] is extracted as [X] stripped, with an empty summary.  The block
    is the first of the reply, [X] holds no fence of its own and does not
    begin with the language tag. *)
Theorem C3_fence_without_summary (pre X post : pystr) :
  let raw := pre ++ FENCE ++ X ++ FENCE ++ post in
  find SUMMARY_SEP raw = None ->
  find FENCE (pre ++ FENCE) = Some (length pre) ->
  find FENCE (X ++ FENCE) = Some (length X) ->
  begins_with_tag X = false ->
  App.extract (PyStr raw) =
    {| App.dockerfile_content := PyStr (strip X);
       App.summary_content := [] |}
  /\ Cli.extract (PyStr raw) = PyStr (strip X).
Proof.
  intros raw Hsep Hpre HX Htag.
  assert (T : match_lit true TAG X = None).
  { unfold begins_with_tag in Htag.
    now destruct (match_lit true TAG X). }
  assert (Hraw : from_section raw = strip X).
  { unfold from_section, raw.
    rewrite (fence_search_block pre _ (lstrip X) Hpre
               (fence_body_untagged X post T HX)).
    apply strip_lstrip. }
  split.
  - now rewrite App_extract_str, Hsep, Hraw.
  - now rewrite Cli_extract_str, Hsep, from_section_strip, Hraw.
Qed.

Lemma C3_fence_without_summary_witness :
  let X := [LF] ++ str "FROM alpine" ++ [LF] in
  let raw := [] ++ FENCE ++ X ++ FENCE ++ [] in
  find SUMMARY_SEP raw = None
  /\ find FENCE ([] ++ FENCE) = Some (length (@nil N))
  /\ find FENCE (X ++ FENCE) = Some (length X)
  /\ begins_with_tag X = false
  /\ App.extract (PyStr raw) =
       {| App.dockerfile_content := PyStr (str "FROM alpine");
          App.summary_content := [] |}
  /\ Cli.extract (PyStr raw) = PyStr (str "FROM alpine").
Proof.
  split; [reflexivity|]. split; [reflexivity|]. split; [reflexivity|].
  split; [reflexivity|].
  apply (C3_fence_without_summary [] ([LF] ++ str "FROM alpine" ++ [LF]) []);
    reflexivity.
Defined.


(** C5.  The reply is split at the first occurrence of the delimiter and
    nowhere else.  With the delimiter at [i], the parts are the text before
    [i] and the text behind the delimiter; no delimiter starts earlier; the
    summary is the second part stripped, so later delimiters stay in it; the
    Dockerfile, in the service and in the command-line tool, is what the
    chain of the extraction gives on the first part stripped, which is also
    what is extracted from the first part alone.  Without the delimiter the
    reply is one part, the summary is empty and the chain runs on the whole
    reply. *)
Theorem C5_split_once (raw : pystr) :
  (forall i, find SUMMARY_SEP raw = Some i ->
     let before := firstn i raw in
     let after := skipn (i + length SUMMARY_SEP) raw in
     raw = before ++ SUMMARY_SEP ++ after
     /\ (forall a b, raw = a ++ SUMMARY_SEP ++ b -> (i <= length a)%nat)
     /\ split1 SUMMARY_SEP raw = inr [before; after]
     /\ App.extract (PyStr raw) =
          {| App.dockerfile_content :=
               App.dockerfile_content (App.extract (PyStr before));
             App.summary_content := strip after |}
     /\ Cli.extract (PyStr raw) = Cli.extract (PyStr before)
     /\ exists d,
         fallback_chain (strip before) = inr d
         /\ App.extract (PyStr raw) =
              {| App.dockerfile_content := PyStr d;
                 App.summary_content := strip after |}
         /\ Cli.extract (PyStr raw) = PyStr d)
  /\ (find SUMMARY_SEP raw = None ->
        split1 SUMMARY_SEP raw = inr [raw]
        /\ App.summary_content (App.extract (PyStr raw)) = []
        /\ exists d,
            fallback_chain (strip raw) = inr d
            /\ App.extract (PyStr raw) =
                 {| App.dockerfile_content := PyStr d;
                    App.summary_content := [] |}
            /\ Cli.extract (PyStr raw) = PyStr d).
Proof.
  split.
  - intros i H before after.
    destruct (find_first _ _ _ H) as [E Hmin].
    pose proof (find_before_none _ _ _ SUMMARY_SEP_nonempty H) as Hb.
    fold before in Hb.
    split; [exact E|]. split; [exact Hmin|]. split; [|split; [|split]].
    + rewrite (split1_parts _ raw SUMMARY_SEP_nonempty), H. reflexivity.
    + rewrite !App_extract_str, H, Hb. cbn [App.dockerfile_content].
      now rewrite from_section_strip.
    + rewrite !Cli_extract_str, H, Hb. reflexivity.
    + exists (from_section (strip before)). split; [|split].
      * apply fallback_chain_eq.
      * rewrite App_extract_str, H. reflexivity.
      * rewrite Cli_extract_str, H. reflexivity.
  - intros H. split; [|split].
    + now apply split1_absent.
    + rewrite App_extract_str, H. reflexivity.
    + exists (from_section (strip raw)). split; [|split].
      * apply fallback_chain_eq.
      * rewrite App_extract_str, H. now rewrite from_section_strip.
      * rewrite Cli_extract_str, H. reflexivity.
Qed.

Lemma C5_split_once_witness :
  find SUMMARY_SEP (str "FROM a" ++ SUMMARY_SEP ++ str " one " ++ SUMMARY_SEP
                    ++ str "two") = Some 6%nat
  /\ App.extract (PyStr (str "FROM a" ++ SUMMARY_SEP ++ str " one "
                         ++ SUMMARY_SEP ++ str "two")) =
       {| App.dockerfile_content := PyStr (str "FROM a");
          App.summary_content := str "one " ++ SUMMARY_SEP ++ str "two" |}
  /\ Cli.extract (PyStr (str "FROM a" ++ SUMMARY_SEP ++ str " one "
                         ++ SUMMARY_SEP ++ str "two"))
     = PyStr (str "FROM a")
  /\ find SUMMARY_SEP (str "from b") = None
  /\ App.extract (PyStr (str "from b")) =
       {| App.dockerfile_content := PyStr (str "from b");
          App.summary_content := [] |}
  /\ Cli.extract (PyStr (str "from b")) = PyStr (str "from b").
Proof.
  split; [reflexivity|].
  destruct (proj1 (C5_split_once
                     (str "FROM a" ++ SUMMARY_SEP ++ str " one "
                      ++ SUMMARY_SEP ++ str "two")) 6%nat eq_refl)
    as (_ & _ & _ & _ & _ & d & Hd & Happ & Hcli).
  injection Hd as <-.
  split; [exact Happ|]. split; [exact Hcli|].
  split; [reflexivity|].
  destruct (proj2 (C5_split_once (str "from b")) eq_refl)
    as (_ & _ & d' & Hd' & Happ' & Hcli').
  injection Hd' as <-.
  split; [exact Happ' | exact Hcli'].
Defined.

(** A reply that is no string has no [split]: the body raises at its first
    statement and the handler puts the reply itself into the result. *)
Lemma extract_not_str content :
  (forall s, content <> PyStr s) ->
  App.extract content =
    {| App.dockerfile_content := content; App.summary_content := [] |}
  /\ Cli.extract content = content.
Proof.
  intros H. destruct content; try (split; reflexivity).
  now destruct (H s).
Qed.

(** The two extractions agree on the Dockerfile. *)
Lemma extract_agree raw :
  Cli.extract (PyStr raw) = App.dockerfile_content (App.extract (PyStr raw)).
Proof.
  rewrite Cli_extract_str, App_extract_str.
  destruct (find SUMMARY_SEP raw) as [i|]; cbn [App.dockerfile_content].
  - reflexivity.
  - now rewrite from_section_strip.
Qed.

(** C9.  On every reply the command-line tool extracts the Dockerfile that
    the HTTP service extracts. *)
Theorem C9_cli_agrees_with_service (raw : pystr) :
  Cli.extract (PyStr raw) = App.dockerfile_content (App.extract (PyStr raw)).
Proof.
  destruct (find SUMMARY_SEP raw) as [i|] eqn:F.
  - rewrite Cli_extract_str, App_extract_str, F. reflexivity.
  - rewrite Cli_extract_str, App_extract_str, F.
    cbn [App.dockerfile_content]. f_equal. apply from_section_strip.
Qed.

(** C10.  On every reply the extraction returns a pair of strings: the body
    of its [try] runs to the end without an exception, in the service and
    in the command-line tool, and equal replies give equal results. *)
Theorem C10_total_and_deterministic (raw raw' : pystr) :
  raw' = raw ->
  (exists d s,
      App.extract_body (PyStr raw) App_init =
        (inr tt, {| App.dockerfile_content := PyStr d;
                    App.summary_content := s |})
      /\ App.extract (PyStr raw) =
           {| App.dockerfile_content := PyStr d; App.summary_content := s |})
  /\ (exists d,
         Cli.extract_body (PyStr raw) (PyStr []) = (inr tt, PyStr d)
         /\ Cli.extract (PyStr raw) = PyStr d)
  /\ App.extract (PyStr raw') = App.extract (PyStr raw)
  /\ Cli.extract (PyStr raw') = Cli.extract (PyStr raw).
Proof.
  intros ->. repeat split.
  - rewrite App_extract_str, App_extract_body_str.
    destruct (find SUMMARY_SEP raw) as [i|]; eauto.
  - rewrite Cli_extract_str, Cli_extract_body_str. eauto.
Qed.

Lemma C10_total_and_deterministic_witness :
  str "hello" = str "hello"
  /\ (exists d s,
         App.extract_body (PyStr (str "hello")) App_init =
           (inr tt, {| App.dockerfile_content := PyStr d;
                       App.summary_content := s |})
         /\ App.extract (PyStr (str "hello")) =
              {| App.dockerfile_content := PyStr d;
                 App.summary_content := s |})
  /\ (exists d,
         Cli.extract_body (PyStr (str "hello")) (PyStr []) = (inr tt, PyStr d)
         /\ Cli.extract (PyStr (str "hello")) = PyStr d)
  /\ App.extract (PyStr (str "hello")) = App.extract (PyStr (str "hello"))
  /\ Cli.extract (PyStr (str "hello")) = Cli.extract (PyStr (str "hello")).
Proof.
  split; [reflexivity|].
  apply (C10_total_and_deterministic (str "hello") (str "hello")).
  reflexivity.
Defined.

(** C2, as the code has it.  When the pattern finds no fenced block in the
    Dockerfile section and no line of the section is a FROM line, the
    extracted Dockerfile is the empty string, in the service and in the
    command-line tool: the section is not passed through.  When the reply
    has no delimiter either, the service extracts an empty Dockerfile and an
    empty summary. *)
Theorem C2_nothing_found_gives_empty (raw : pystr) :
  search true FENCE_RE (section_of raw) = None ->
  next_index is_from_line (splitlines (section_of raw)) = None ->
  App.dockerfile_content (App.extract (PyStr raw)) = PyStr []
  /\ Cli.extract (PyStr raw) = PyStr []
  /\ (find SUMMARY_SEP raw = None ->
      App.extract (PyStr raw) =
        {| App.dockerfile_content := PyStr []; App.summary_content := [] |}).
Proof.
  intros Hre Hfrom.
  assert (H : from_section (section_of raw) = []).
  { rewrite search_fence_re in Hre. unfold from_section, from_lines, tail_from.
    destruct (fence_search (section_of raw)); [discriminate|].
    now rewrite Hfrom. }
  assert (Hcli : Cli.extract (PyStr raw) = PyStr []).
  { rewrite Cli_extract_str. fold (section_of raw).
    now rewrite from_section_strip, H. }
  split; [now rewrite <- extract_agree|]. split; [exact Hcli|].
  intros Hsep. unfold section_of in H. rewrite Hsep in H.
  now rewrite App_extract_str, Hsep, H.
Qed.

Lemma C2_nothing_found_gives_empty_witness :
  search true FENCE_RE (section_of (str "hello world")) = None
  /\ next_index is_from_line (splitlines (section_of (str "hello world")))
     = None
  /\ App.dockerfile_content (App.extract (PyStr (str "hello world")))
     = PyStr []
  /\ Cli.extract (PyStr (str "hello world")) = PyStr []
  /\ (find SUMMARY_SEP (str "hello world") = None ->
      App.extract (PyStr (str "hello world")) =
        {| App.dockerfile_content := PyStr []; App.summary_content := [] |}).
Proof.
  split; [reflexivity|]. split; [reflexivity|].
  apply (C2_nothing_found_gives_empty (str "hello world")); reflexivity.
Defined.

(** C2, as the specification states it, fails on the reply [hello world]:
    it has no delimiter, no fence and no FROM line, and the extracted
    Dockerfile is empty, not the reply. *)
Lemma C2_counterexample :
  find SUMMARY_SEP (str "hello world") = None
  /\ search true FENCE_RE (section_of (str "hello world")) = None
  /\ next_index is_from_line (splitlines (section_of (str "hello world")))
     = None
  /\ App.dockerfile_content (App.extract (PyStr (str "hello world")))
     <> PyStr (section_of (str "hello world"))
  /\ App.dockerfile_content (App.extract (PyStr (str "hello world")))
     <> PyStr (str "hello world")
  /\ Cli.extract (PyStr (str "hello world")) <> PyStr (str "hello world").
Proof.
  repeat split; try reflexivity; vm_compute; discriminate.
Qed.

(** C4, as the code has it.  For a reply without delimiter and without
    fenced block whose first FROM line is line [start_idx], the extracted
    Dockerfile is made of the lines from that one to the last, joined by a
    line feed and stripped: whatever line boundary stood between two lines
    is replaced by a line feed.  When line feeds are the only line
    boundaries of the reply, this is the text of the reply from that line to
    the end, stripped. *)
Theorem C4_from_line_fallback (raw : pystr) (start_idx : nat) :
  find SUMMARY_SEP raw = None ->
  search true FENCE_RE raw = None ->
  next_index is_from_line (splitlines raw) = Some start_idx ->
  App.extract (PyStr raw) =
    {| App.dockerfile_content :=
         PyStr (strip (join [LF] (skipn start_idx (splitlines raw))));
       App.summary_content := [] |}
  /\ Cli.extract (PyStr raw) =
       PyStr (strip (join [LF] (skipn start_idx (splitlines raw))))
  /\ (only_LF raw = true ->
      exists pre suf,
        raw = pre ++ suf
        /\ splitlines suf = skipn start_idx (splitlines raw)
        /\ Cli.extract (PyStr raw) = PyStr (strip suf)).
Proof.
  intros Hsep Hre Hfrom.
  assert (H : from_section raw
              = strip (join [LF] (skipn start_idx (splitlines raw)))).
  { rewrite search_fence_re in Hre. unfold from_section, from_lines, tail_from.
    destruct (fence_search raw); [discriminate|]. now rewrite Hfrom. }
  assert (Hcli : Cli.extract (PyStr raw) =
                   PyStr (strip (join [LF] (skipn start_idx (splitlines raw)))))
    by now rewrite Cli_extract_str, Hsep, from_section_strip, H.
  split; [|split].
  - now rewrite App_extract_str, Hsep, H.
  - exact Hcli.
  - intros Hlf.
    destruct (splitlines_skipn_LF start_idx raw Hlf)
      as (pre & suf & E & Hsuf & Hlf').
    exists pre, suf. split; [exact E|]. split; [exact Hsuf|].
    rewrite Hcli, <- Hsuf. f_equal. now apply strip_join_splitlines_LF.
Qed.

Lemma C4_from_line_fallback_witness :
  let raw := str "Here it is:" ++ [LF] ++ str "  from alpine" ++ [CR; LF]
             ++ str "RUN true" ++ [LF] in
  find SUMMARY_SEP raw = None
  /\ search true FENCE_RE raw = None
  /\ next_index is_from_line (splitlines raw) = Some 1%nat
  /\ App.extract (PyStr raw) =
       {| App.dockerfile_content :=
            PyStr (str "from alpine" ++ [LF] ++ str "RUN true");
          App.summary_content := [] |}
  /\ Cli.extract (PyStr raw) =
       PyStr (str "from alpine" ++ [LF] ++ str "RUN true").
Proof.
  split; [reflexivity|]. split; [reflexivity|]. split; [reflexivity|].
  pose proof (C4_from_line_fallback
                (str "Here it is:" ++ [LF] ++ str "  from alpine" ++ [CR; LF]
                 ++ str "RUN true" ++ [LF]) 1%nat
                eq_refl eq_refl eq_refl) as (Happ & Hcli & _).
  split; [exact Happ | exact Hcli].
Defined.

(** C4, as the specification states it, fails on a reply whose lines end
    in CR LF: the reply has no delimiter and no fence, its first line is a
    FROM line, so the text from that line to the end is the whole reply;
    the extracted Dockerfile is not that text stripped, because CR LF has
    become a line feed. *)
Lemma C4_counterexample :
  find SUMMARY_SEP crlf_reply = None
  /\ search true FENCE_RE crlf_reply = None
  /\ next_index is_from_line (splitlines crlf_reply) = Some 0%nat
  /\ App.dockerfile_content (App.extract (PyStr crlf_reply))
     <> PyStr (strip crlf_reply)
  /\ App.dockerfile_content (App.extract (PyStr crlf_reply))
     = PyStr (str "FROM a" ++ [LF] ++ str "RUN b")
  /\ Cli.extract (PyStr crlf_reply) <> PyStr (strip crlf_reply).
Proof.
  repeat split; try reflexivity; vm_compute; discriminate.
Qed.

(* ===================================================================== *)
(** * The two entry points: what is checked before the outbound call *)
(* ===================================================================== *)

Lemma strip_spaces s : forallb is_space s = true -> strip s = [].
Proof.
  intros H. rewrite <- (app_nil_r s). now rewrite strip_app_spaces_l.
Qed.

Lemma strip_nil_spaces s : strip s = [] -> forallb is_space s = true.
Proof.
  unfold strip. intros H.
  destruct (lstrip_decomp s) as (ws & E & Hws).
  pose proof (lstrip_head s) as Hh.
  destruct (lstrip s) as [|c t].
  - rewrite app_nil_r in E. now subst ws.
  - change (c :: t) with ([] ++ c :: t) in H.
    rewrite rstrip_app_stop in H by exact Hh. discriminate.
Qed.

(** The test of the handler on the Dockerfile of the request. *)
Lemma blank_test text :
  negb (truthy (PyStr text)) || pystr_eqb (strip text) []
  = forallb is_space text.
Proof.
  destruct (forallb is_space text) eqn:E.
  - rewrite (strip_spaces _ E). apply orb_true_r.
  - destruct text as [|c t]; [discriminate|]. simpl negb. simpl orb.
    unfold pystr_eqb.
    destruct (list_eq_dec N.eq_dec (strip (c :: t)) []) as [H|H];
      [|reflexivity].
    apply strip_nil_spaces in H. congruence.
Qed.

Lemma blank_test_cli text :
  negb (truthy (PyStr (strip text))) = forallb is_space text.
Proof.
  destruct (forallb is_space text) eqn:E.
  - now rewrite (strip_spaces _ E).
  - destruct (strip text) eqn:S; [|reflexivity].
    apply strip_nil_spaces in S. congruence.
Qed.

(** C6.  A Dockerfile text that is empty or made of white space only is
    rejected before any outbound call: the handler raises status 400 and
    has made no call; the command-line tool, once it has read the text,
    exits with code 1, has printed a diagnostic on the error stream and has
    made no call. *)
Theorem C6_blank_input_rejected (text : pystr) :
  forallb is_space text = true ->
  (forall getenv post,
      App.optimize getenv post {| App.dockerfile := text |} =
        (inl {| App.status_code := 400;
                App.detail := str "dockerfile is required" |}, []))
  /\ (forall w args,
         Cli.read_input w args = inr text ->
         Cli.exit_code (Cli.main w args) = 1%Z
         /\ Cli.posts (Cli.main w args) = []
         /\ Cli.stdout (Cli.main w args) = []
         /\ (Cli.stderr (Cli.main w args) = Cli.MISSING_KEY
             \/ Cli.stderr (Cli.main w args) =
                  [str "Error: No Dockerfile content provided"])).
Proof.
  intros Hblank. split.
  - intros getenv post. unfold App.optimize. cbn [App.dockerfile].
    now rewrite blank_test, Hblank.
  - intros w args Hread. unfold Cli.main.
    destruct (Cli.nonempty _) as [key|].
    + rewrite Hread, blank_test_cli, Hblank. cbn. auto.
    + cbn. auto.
Qed.

Lemma C6_blank_input_rejected_witness :
  forallb is_space [32; LF; 9] = true
  /\ App.optimize (fun _ => Some (str "k")) (fun _ => Failure [])
                  {| App.dockerfile := [32; LF; 9] |} =
       (inl {| App.status_code := 400;
               App.detail := str "dockerfile is required" |}, [])
  /\ Cli.read_input (bare_world [32; LF; 9]) (bare_args (Some (str "k")))
     = inr [32; LF; 9]
  /\ Cli.exit_code (Cli.main (bare_world [32; LF; 9])
                             (bare_args (Some (str "k")))) = 1%Z.
Proof.
  split; [reflexivity|].
  pose proof (C6_blank_input_rejected [32; LF; 9] eq_refl) as [Happ Hcli].
  split; [apply Happ|]. split; [reflexivity|].
  apply (Hcli (bare_world [32; LF; 9]) (bare_args (Some (str "k")))).
  reflexivity.
Defined.

(** C7, as the code has it.  Without an API key both entry points fail
    before any outbound call.  The command-line tool exits with code 1 and
    the two lines about the key on the error stream.  The handler raises
    status 500 when the Dockerfile of the request is not blank; a blank
    Dockerfile is rejected first, with status 400. *)
Theorem C7_missing_key_rejected (getenv : pystr -> option pystr) :
  getenv API_KEY = None \/ getenv API_KEY = Some [] ->
  (forall post req,
      exists e,
        App.optimize getenv post req = (inl e, [])
        /\ App.status_code e =
             if forallb is_space (App.dockerfile req) then 400%Z else 500%Z)
  /\ (forall w args,
         Cli.getenv w = getenv ->
         Cli.api_key args = None \/ Cli.api_key args = Some [] ->
         Cli.main w args = Cli.exit1 Cli.MISSING_KEY []).
Proof.
  intros Hkey. split.
  - intros post req. unfold App.optimize. rewrite blank_test.
    destruct (forallb is_space (App.dockerfile req)).
    + eexists. split; reflexivity.
    + destruct Hkey as [-> | ->]; eexists; split; reflexivity.
  - intros w args Hw Harg. unfold Cli.main. rewrite Hw.
    destruct Harg as [-> | ->]; destruct Hkey as [-> | ->]; reflexivity.
Qed.

Lemma C7_missing_key_rejected_witness :
  ((fun _ : pystr => @None pystr) API_KEY = None
   \/ (fun _ : pystr => @None pystr) API_KEY = Some [])
  /\ (exists e,
         App.optimize (fun _ => None) (fun _ => Failure [])
                      {| App.dockerfile := str "FROM a" |} = (inl e, [])
         /\ App.status_code e = 500%Z)
  /\ Cli.main (bare_world (str "FROM a")) (bare_args None)
     = Cli.exit1 Cli.MISSING_KEY [].
Proof.
  split; [left; reflexivity|].
  pose proof (C7_missing_key_rejected (fun _ => None) (or_introl eq_refl))
    as [Happ Hcli].
  split.
  - apply (Happ (fun _ => Failure []) {| App.dockerfile := str "FROM a" |}).
  - apply (Hcli (bare_world (str "FROM a")) (bare_args None) eq_refl).
    left. reflexivity.
Defined.

(** C7, as the specification states it, fails for a request without key
    whose Dockerfile is empty: the handler raises status 400, not 500. *)
Lemma C7_counterexample :
  (fun _ : pystr => @None pystr) API_KEY = None
  /\ App.optimize (fun _ => None) (fun _ => Failure [])
                  {| App.dockerfile := [] |} =
       (inl {| App.status_code := 400;
               App.detail := str "dockerfile is required" |}, [])
  /\ (exists e,
         fst (App.optimize (fun _ => None) (fun _ => Failure [])
                           {| App.dockerfile := [] |}) = inl e
         /\ App.status_code e <> 500%Z).
Proof.
  split; [reflexivity|]. split; [reflexivity|].
  eexists. split; [reflexivity|]. discriminate.
Qed.

Lemma first_content_empty data :
  is_empty_reply data -> truthy (first_content data) = false.
Proof.
  intros [(d & -> & Hc) | (d & first & rest & message & content
                            & -> & Hc & Hm & Hcontent & Hfalse)];
    unfold first_content; rewrite Hc; cbn [truthy item0].
  - reflexivity.
  - now rewrite Hm, Hcontent.
Qed.

Lemma failed_is_not_empty exc :
  str "Abacus request failed: " ++ exc <> str "Empty response from Abacus ChatLLM".
Proof. discriminate. Qed.

(** C8.  A response that arrived (status below 400, body decoded) but has
    an empty [choices] list, or empty content in its first choice, makes
    both entry points fail with the empty-response error: status 502 with
    that detail in the service, a [RuntimeError] with that message in the
    command-line tool; no result is returned.  A failure of the transport
    never yields this error. *)
Theorem C8_empty_response_fails (code : Z) (text : pystr) (data : pyval) :
  (code < 400)%Z ->
  is_empty_reply data ->
  (forall getenv post req key,
      forallb is_space (App.dockerfile req) = false ->
      getenv API_KEY = Some key -> key <> [] ->
      let call :=
        App.request_of key
          (App.getenv_or getenv (str "ABACUS_MODEL") (str "gpt-5-mini"))
          (App.dockerfile req) in
      post call = Response code text (inr data) ->
      App.optimize getenv post req =
        (inl {| App.status_code := 502;
                App.detail := App.EMPTY_RESPONSE |}, [call]))
  /\ (forall post dockerfile key model,
         let call := Cli.request_of key model dockerfile in
         post call = Response code text (inr data) ->
         Cli.optimize_dockerfile post dockerfile key model =
           (inl {| Cli.message := Cli.EMPTY_RESPONSE |}, [call]))
  /\ (forall getenv post req,
         (forall call, transport_error (post call)) ->
         fst (App.optimize getenv post req) <>
           inl {| App.status_code := 502;
                  App.detail := App.EMPTY_RESPONSE |})
  /\ (forall post dockerfile key model,
         (forall call, transport_error (post call)) ->
         fst (Cli.optimize_dockerfile post dockerfile key model) <>
           inl {| Cli.message := Cli.EMPTY_RESPONSE |}).
Proof.
  intros Hcode Hempty.
  pose proof (first_content_empty data Hempty) as Hfalse.
  assert (Hlt : (400 <=? code)%Z = false) by (apply Z.leb_gt; exact Hcode).
  repeat split.
  - intros getenv post req key Hblank Hkey Hne call Hpost.
    unfold App.optimize. rewrite blank_test, Hblank.
    rewrite Hkey. destruct key as [|k key]; [contradiction|].
    fold call. rewrite Hpost, Hlt, Hfalse. reflexivity.
  - intros post dockerfile key model call Hpost.
    unfold Cli.optimize_dockerfile. fold call.
    rewrite Hpost, Hlt, Hfalse. reflexivity.
  - intros getenv post req Hpost. unfold App.optimize.
    destruct (negb _ || _); [discriminate|].
    destruct (getenv API_KEY) as [[|k key]|];
      try discriminate.
    match goal with
    | |- context [post ?c] => specialize (Hpost c); destruct (post c)
    end; try contradiction; cbn [fst]; intros H;
      first [ discriminate H
            | injection H as H; now apply failed_is_not_empty in H ].
  - intros post dockerfile key model Hpost. unfold Cli.optimize_dockerfile.
    match goal with
    | |- context [post ?c] => specialize (Hpost c); destruct (post c)
    end; try contradiction; cbn [fst]; intros H;
      first [ discriminate H
            | injection H as H; now apply failed_is_not_empty in H ].
Qed.

Lemma empty_choices_is_empty : is_empty_reply empty_choices.
Proof. left. eexists. split; reflexivity. Qed.

Lemma empty_content_is_empty : is_empty_reply empty_content.
Proof. right. do 5 eexists. repeat split; reflexivity. Qed.

Lemma C8_empty_response_fails_witness :
  (200 < 400)%Z
  /\ is_empty_reply empty_content
  /\ App.optimize (fun _ => Some (str "k"))
                  (fun _ => Response 200 [] (inr empty_content))
                  {| App.dockerfile := str "FROM a" |} =
       (inl {| App.status_code := 502;
               App.detail := App.EMPTY_RESPONSE |},
        [App.request_of (str "k") (str "k") (str "FROM a")])
  /\ Cli.optimize_dockerfile
       (fun _ => Response 200 [] (inr empty_content))
       (str "FROM a") (str "k") (str "gpt-5-mini") =
       (inl {| Cli.message := Cli.EMPTY_RESPONSE |},
        [Cli.request_of (str "k") (str "gpt-5-mini") (str "FROM a")]).
Proof.
  split; [reflexivity|]. split; [exact empty_content_is_empty|].
  pose proof (C8_empty_response_fails 200 [] empty_content eq_refl
                empty_content_is_empty) as (Happ & Hcli & _).
  split.
  - apply (Happ (fun _ => Some (str "k"))
                (fun _ => Response 200 [] (inr empty_content))
                {| App.dockerfile := str "FROM a" |} (str "k"));
      [reflexivity | reflexivity | discriminate | reflexivity].
  - apply (Hcli (fun _ => Response 200 [] (inr empty_content))
                (str "FROM a") (str "k") (str "gpt-5-mini")).
    reflexivity.
Defined.

(* ===================================================================== *)
(** * More about the fence pattern *)
(* ===================================================================== *)

Lemma find_skipn_none p s n : find p s = None -> find p (skipn n s) = None.
Proof.
  intros H. destruct (find p (skipn n s)) as [j|] eqn:F; [|reflexivity].
  apply find_split in F. exfalso.
  apply (find_absent p s H) with (a := firstn n s ++ firstn j (skipn n s))
                                 (b := skipn (j + length p) (skipn n s)).
  rewrite <- app_assoc, <- F. symmetry. apply firstn_skipn.
Qed.

Lemma find_fence_lstrip s :
  find FENCE (lstrip s) = None <-> find FENCE s = None.
Proof.
  split; [apply find_fence_lstrip_none|].
  intros H. destruct (lstrip_decomp s) as (ws & E & Hws).
  rewrite E in H.
  rewrite find_fence_app_other in H by now apply spaces_not_backtick.
  now destruct (find FENCE (lstrip s)).
Qed.

(** Behind an opening fence the group is found exactly when a second fence
    follows. *)
Lemma fence_body_none rest :
  fence_body rest = None <-> find FENCE rest = None.
Proof.
  unfold fence_body. cbv zeta.
  destruct (match_lit true TAG rest) as [r|] eqn:T.
  - destruct (match_lit_letters TAG rest r TAG_letters T) as (t & E & _ & Ht).
    assert (Hrest : find FENCE rest = None <-> find FENCE r = None).
    { rewrite E, find_fence_app_other.
      - now destruct (find FENCE r).
      - eapply Forall_impl; [|exact Ht]. simpl. tauto. }
    rewrite Hrest, <- find_fence_lstrip.
    now destruct (find FENCE (lstrip r)).
  - rewrite <- find_fence_lstrip. now destruct (find FENCE (lstrip rest)).
Qed.

Lemma fence_search_none_of_tail s :
  find FENCE (skipn 3 s) = None -> fence_search s = None.
Proof.
  induction s as [|x s IH]; intros H.
  - reflexivity.
  - cbn [fence_search].
    assert (Hs : fence_search s = None).
    { apply IH. replace (skipn 3 s) with (skipn 1 (skipn 3 (x :: s))).
      - now apply find_skipn_none.
      - rewrite skipn_skipn. reflexivity. }
    destruct (startswith FENCE (x :: s)); [|exact Hs].
    apply fence_body_none in H. now rewrite H.
Qed.

Lemma fence_search_none s :
  fence_search s = None <->
  match find FENCE s with
  | Some i => find FENCE (skipn (i + 3) s) = None
  | None => True
  end.
Proof.
  induction s as [|x s IH].
  - now split.
  - cbn [fence_search find].
    destruct (startswith FENCE (x :: s)).
    + simpl Nat.add. split.
      * intros H. apply fence_body_none.
        now destruct (fence_body (skipn 3 (x :: s))).
      * intros H. pose proof (fence_search_none_of_tail (x :: s) H) as G.
        cbn [fence_search] in G.
        destruct (startswith FENCE (x :: s)); [exact G|].
        apply fence_body_none in H. now rewrite H.
    + rewrite IH. now destruct (find FENCE s).
Qed.

(** The group that the search returns holds no fence. *)
Lemma fence_search_group s g : fence_search s = Some g -> find FENCE g = None.
Proof.
  induction s as [|x s IH]; cbn [fence_search]; intros H.
  - now destruct (startswith FENCE []).
  - assert (B : forall rest, fence_body rest = Some g -> find FENCE g = None).
    { intros rest. unfold fence_body. cbv zeta.
      set (body := lstrip _).
      destruct (find FENCE body) as [j|] eqn:F; [|discriminate].
      intros [= <-]. now apply find_before_none. }
    destruct (startswith FENCE (x :: s)).
    + destruct (fence_body (skipn 3 (x :: s))) as [g'|] eqn:E.
      * injection H as ->. now apply (B _ E).
      * now apply IH.
    + now apply IH.
Qed.

Lemma find_fence_strip_none g :
  find FENCE g = None -> find FENCE (strip g) = None.
Proof.
  assert (H : forall s,
             match find FENCE (strip s) with None => true | Some _ => false end
             = match find FENCE s with None => true | Some _ => false end).
  { apply strip_invariant with
      (f := fun s => match find FENCE s with None => true | Some _ => false end);
      intros c t Hc.
    - rewrite find_fence_cons_space by exact Hc. now destruct (find FENCE t).
    - now rewrite (find_snoc_other FENCE t c FENCE_nonempty
                                   (FENCE_not_space c Hc)). }
  intros G. specialize (H g). rewrite G in H.
  now destruct (find FENCE (strip g)).
Qed.

(** X1.  What [re.search] returns for the fence pattern: the match at the
    leftmost fence behind which another fence follows; its group is the
    text behind the opening fence, without the language tag (in any letter
    case) and without leading white space, up to the next fence.  Giving
    characters back to the optional tag or to the white space never finds
    another match. *)
Theorem X1_fence_pattern_meaning (s : pystr) :
  search true FENCE_RE s =
    option_map (fun g => {| group1 := Some g |}) (fence_search s).
Proof. exact (search_fence_re s). Qed.

(** X2.  The pattern finds a fenced block exactly when a fence follows the
    first fence of the text without overlapping it: a text whose first fence
    is never closed has no match at all, whatever comes later. *)
Theorem X2_fence_found_iff_closed (s : pystr) :
  search true FENCE_RE s = None <->
  match find FENCE s with
  | Some i => find FENCE (skipn (i + 3) s) = None
  | None => True
  end.
Proof.
  rewrite search_fence_re, <- fence_search_none.
  now destruct (fence_search s).
Qed.

(** X3.  When the pattern finds a block in the Dockerfile section, the
    Dockerfile that both entry points return is the group stripped, and it
    holds no fence. *)
Theorem X3_fenced_result_has_no_fence (raw : pystr) (m : Match) :
  search true FENCE_RE (section_of raw) = Some m ->
  exists g,
    group1 m = Some g
    /\ App.dockerfile_content (App.extract (PyStr raw)) = PyStr (strip g)
    /\ Cli.extract (PyStr raw) = PyStr (strip g)
    /\ find FENCE (strip g) = None.
Proof.
  rewrite search_fence_re. intros H.
  destruct (fence_search (section_of raw)) as [g|] eqn:F; [|discriminate].
  injection H as <-. exists g. split; [reflexivity|].
  assert (Hcli : Cli.extract (PyStr raw) = PyStr (strip g)).
  { rewrite Cli_extract_str. fold (section_of raw).
    rewrite from_section_strip. unfold from_section. now rewrite F. }
  repeat split.
  - now rewrite <- extract_agree.
  - exact Hcli.
  - apply find_fence_strip_none. now apply (fence_search_group _ _ F).
Qed.

Lemma X3_fenced_result_has_no_fence_witness :
  search true FENCE_RE
         (section_of (str "Sure: ```Dockerfile FROM a ``` and ```x```"))
  = Some {| group1 := Some (str "FROM a ") |}
  /\ exists g,
      Some (str "FROM a ") = Some g
      /\ App.dockerfile_content
           (App.extract
              (PyStr (str "Sure: ```Dockerfile FROM a ``` and ```x```")))
         = PyStr (strip g)
      /\ Cli.extract
           (PyStr (str "Sure: ```Dockerfile FROM a ``` and ```x```"))
         = PyStr (strip g)
      /\ find FENCE (strip g) = None.
Proof.
  split; [reflexivity|].
  apply (X3_fenced_result_has_no_fence
           (str "Sure: ```Dockerfile FROM a ``` and ```x```")
           {| group1 := Some (str "FROM a ") |}).
  reflexivity.
Defined.


(* ===================================================================== *)
(** * More about the extraction *)
(* ===================================================================== *)

Ltac split_tests :=
  repeat match goal with
         | |- context [if ?b then _ else _] => destruct b eqn:?
         end.

Ltac props :=
  repeat match goal with
         | H : (_ && _) = true |- _ => apply andb_true_iff in H; destruct H
         | H : (_ && _) = false |- _ => apply andb_false_iff in H; destruct H
         | H : (_ <=? _) = true |- _ => apply N.leb_le in H
         | H : (_ <=? _) = false |- _ => apply N.leb_gt in H
         | H : (_ =? _) = true |- _ => apply N.eqb_eq in H
         | H : (_ =? _) = false |- _ => apply N.eqb_neq in H
         end.

Ltac decide_tests :=
  repeat match goal with
         | |- context [?x =? ?y] => destruct (N.eqb_spec x y)
         end;
  cbn [andb orb]; try reflexivity; try lia.

(** One character of the subject against one letter of [FROM ]: no
    character outside ASCII has an upper case that begins with R, O, M or a
    space, and the ligatures that begin with F go on with F, I or L. *)
Lemma upper_step_F p a t :
  startswith (70 :: 82 :: p) (upper_char a ++ t) =
    ((a =? 70) || (a =? 102)) && startswith (82 :: p) t.
Proof.
  unfold upper_char. split_tests; props; subst;
    cbn [app startswith]; decide_tests.
Qed.

Lemma upper_step_letter T p a t :
  T = 82 \/ T = 79 \/ T = 77 ->
  startswith (T :: p) (upper_char a ++ t) =
    ((a =? T) || (a =? T + 32)) && startswith p t.
Proof.
  intros HT. unfold upper_char. split_tests; props; subst;
    cbn [app startswith]; decide_tests.
Qed.

Lemma upper_step_space p a t :
  startswith (32 :: p) (upper_char a ++ t) = (a =? 32) && startswith p t.
Proof.
  unfold upper_char. split_tests; props; subst;
    cbn [app startswith]; decide_tests.
Qed.

Lemma upper_cons a t : upper (a :: t) = upper_char a ++ upper t.
Proof. reflexivity. Qed.

Lemma startswith_FROM_upper t :
  startswith FROM_ (upper t) = is_from_prefix t.
Proof.
  change FROM_ with [70; 82; 79; 77; 32].
  destruct t as [|a [|b [|c [|d [|e t]]]]];
    rewrite ?upper_cons, ?upper_step_F,
      ?(upper_step_letter 82), ?(upper_step_letter 79),
      ?(upper_step_letter 77), ?upper_step_space by tauto;
    cbn [upper flat_map startswith is_from_prefix N.add Pos.add Pos.succ];
    rewrite ?andb_false_r, ?andb_true_r; try reflexivity.
  now rewrite !andb_assoc.
Qed.

Lemma is_from_line_prefix ln : is_from_line ln = is_from_prefix (strip ln).
Proof. unfold is_from_line. apply startswith_FROM_upper. Qed.

(** X4.  A line is a FROM line exactly when, once stripped, it begins
    with f, r, o, m in either ASCII case and a space.  Indentation does not
    matter; no other character counts as one of the letters (the ligatures
    that upper-case to FI or FL do not); and since the line is stripped
    first, the word FROM with nothing behind it is no FROM line. *)
Theorem X4_from_line_meaning (ln : pystr) :
  is_from_line ln = is_from_prefix (strip ln).
Proof. unfold is_from_line. apply startswith_FROM_upper. Qed.

Lemma strip_from_section sec : strip (from_section sec) = from_section sec.
Proof.
  unfold from_section, from_lines, tail_from.
  destruct (fence_search sec); [apply strip_idem|].
  destruct (next_index is_from_line (splitlines sec));
    [apply strip_idem | reflexivity].
Qed.

Lemma extract_stripped (raw : pystr) :
  exists d s,
    App.extract (PyStr raw) =
      {| App.dockerfile_content := PyStr d; App.summary_content := s |}
    /\ Cli.extract (PyStr raw) = PyStr d
    /\ strip d = d /\ strip s = s.
Proof.
  rewrite App_extract_str, Cli_extract_str.
  destruct (find SUMMARY_SEP raw) as [i|].
  - do 2 eexists. split; [reflexivity|]. split; [reflexivity|].
    split; [apply strip_from_section | apply strip_idem].
  - do 2 eexists. split; [reflexivity|]. split.
    + now rewrite from_section_strip.
    + split; [apply strip_from_section | reflexivity].
Qed.

(** X5.  Whatever the reply, the Dockerfile and the summary that the
    extraction returns carry no white space at either end. *)
Theorem X5_results_are_stripped (raw : pystr) :
  exists d s,
    App.extract (PyStr raw) =
      {| App.dockerfile_content := PyStr d; App.summary_content := s |}
    /\ Cli.extract (PyStr raw) = PyStr d
    /\ strip d = d /\ strip s = s.
Proof. exact (extract_stripped raw). Qed.

Lemma SUMMARY_SEP_not_space c :
  is_space c = true -> Forall (fun x => x <> c) SUMMARY_SEP.
Proof.
  intros Hc. apply is_space_spec in Hc.
  unfold SUMMARY_SEP, str. simpl. repeat constructor; lia.
Qed.

Lemma find_sep_cons_space c s :
  is_space c = true ->
  find SUMMARY_SEP (c :: s) = option_map S (find SUMMARY_SEP s).
Proof.
  intros Hc. pose proof (SUMMARY_SEP_not_space c Hc) as H.
  inversion H as [|x l Hx _ E]; subst.
  apply (find_cons_other 45). congruence.
Qed.

Lemma find_sep_snoc_space c s :
  is_space c = true -> find SUMMARY_SEP (s ++ [c]) = find SUMMARY_SEP s.
Proof.
  intros Hc. apply find_snoc_other;
    [exact SUMMARY_SEP_nonempty | now apply SUMMARY_SEP_not_space].
Qed.

Lemma App_extract_cons_space c s :
  is_space c = true -> App.extract (PyStr (c :: s)) = App.extract (PyStr s).
Proof.
  intros Hc. rewrite !App_extract_str, find_sep_cons_space by exact Hc.
  destruct (find SUMMARY_SEP s) as [i|]; cbn [option_map].
  - cbn [firstn Nat.add skipn]. now rewrite strip_cons_space.
  - rewrite <- (from_section_strip (c :: s)), strip_cons_space by exact Hc.
    now rewrite from_section_strip.
Qed.

Lemma App_extract_snoc_space c s :
  is_space c = true -> App.extract (PyStr (s ++ [c])) = App.extract (PyStr s).
Proof.
  intros Hc. rewrite !App_extract_str, find_sep_snoc_space by exact Hc.
  destruct (find SUMMARY_SEP s) as [i|] eqn:F.
  - apply find_bound in F. rewrite SUMMARY_SEP_length in F.
    rewrite firstn_app, skipn_app.
    replace (i - length s)%nat with 0%nat by lia.
    replace (i + 13 - length s)%nat with 0%nat by lia.
    cbn [firstn skipn]. rewrite app_nil_r.
    now rewrite strip_snoc_space.
  - rewrite <- (from_section_strip (s ++ [c])), strip_snoc_space by exact Hc.
    now rewrite from_section_strip.
Qed.

(** X6.  White space around the reply changes nothing: the reply and the
    reply stripped give the same Dockerfile and the same summary, in the
    service and in the command-line tool. *)
Theorem X6_surrounding_space_is_ignored (raw : pystr) :
  App.extract (PyStr (strip raw)) = App.extract (PyStr raw)
  /\ Cli.extract (PyStr (strip raw)) = Cli.extract (PyStr raw).
Proof.
  assert (H : App.extract (PyStr (strip raw)) = App.extract (PyStr raw)).
  { apply strip_invariant with (f := fun s => App.extract (PyStr s));
      intros c t Hc.
    - now apply App_extract_cons_space.
    - now apply App_extract_snoc_space. }
  split; [exact H|]. now rewrite !extract_agree, H.
Qed.

(** X7.  The reading of the reply out of the decoded body.  It gives a
    non-empty content exactly when the body is a dict whose [choices] is a
    list that begins with a dict, whose [message] (an empty dict when the key
    is missing) is a dict with a truthy [content]; the content is then that
    value.  For every other body, of whatever shape, the content is
    empty. *)
Theorem X7_content_of_first_choice (data : pyval) :
  (truthy (first_content data) = true <->
   exists d first rest message,
     data = PyDict d
     /\ dict_get d (str "choices") (PyList []) = PyList (PyDict first :: rest)
     /\ dict_get first (str "message") (PyDict []) = PyDict message
     /\ truthy (dict_get message (str "content") (PyStr [])) = true)
  /\ (forall d first rest message,
         data = PyDict d ->
         dict_get d (str "choices") (PyList []) = PyList (PyDict first :: rest) ->
         dict_get first (str "message") (PyDict []) = PyDict message ->
         first_content data = dict_get message (str "content") (PyStr [])).
Proof.
  assert (Hval : forall d first rest message,
             data = PyDict d ->
             dict_get d (str "choices") (PyList [])
             = PyList (PyDict first :: rest) ->
             dict_get first (str "message") (PyDict []) = PyDict message ->
             first_content data
             = dict_get message (str "content") (PyStr [])).
  { intros d first rest message -> C M. unfold first_content.
    rewrite C. cbn [truthy item0 get]. now rewrite M. }
  split; [split|exact Hval].
  - unfold first_content.
    destruct data as [ |b|z|m e|s|l|d]; try discriminate.
    destruct (dict_get d (str "choices") (PyList []))
      as [ |b|z|m e|s|l|d'] eqn:C; cbn [truthy item0]; try discriminate.
    + destruct b; discriminate.
    + destruct (negb (z =? 0)%Z); discriminate.
    + destruct (negb (m =? 0)%Z); discriminate.
    + destruct s; cbn [get]; discriminate.
    + destruct l as [|first rest]; [discriminate|].
      destruct first as [ |b|z|m e|s|l'|f]; cbn [get]; try discriminate.
      destruct (dict_get f (str "message") (PyDict []))
        as [ |b|z|m' e|s|l'|m] eqn:M; cbn [get]; try discriminate.
      intros H. exists d, f, rest, m. now repeat split.
    + destruct d'; discriminate.
  - intros (d & first & rest & message & E & C & M & H).
    now rewrite (Hval d first rest message E C M).
Qed.

(* ===================================================================== *)
(** * More about the two entry points *)
(* ===================================================================== *)

(** X8.  A body that arrived and was decoded but gives no content to read
    (whatever its shape: no dict, no [choices], a first choice or a message
    that is no dict, a content that is null, false, zero or empty) makes
    both entry points fail with the empty-response error, after their one
    outbound call. *)
Theorem X8_unusable_body_fails (code : Z) (text : pystr) (data : pyval) :
  (code < 400)%Z ->
  truthy (first_content data) = false ->
  (forall getenv post req key,
      forallb is_space (App.dockerfile req) = false ->
      getenv API_KEY = Some key -> key <> [] ->
      let call :=
        App.request_of key (service_model getenv) (App.dockerfile req) in
      post call = Response code text (inr data) ->
      App.optimize getenv post req =
        (inl {| App.status_code := 502;
                App.detail := App.EMPTY_RESPONSE |}, [call]))
  /\ (forall post dockerfile key model,
         let call := Cli.request_of key model dockerfile in
         post call = Response code text (inr data) ->
         Cli.optimize_dockerfile post dockerfile key model =
           (inl {| Cli.message := Cli.EMPTY_RESPONSE |}, [call])).
Proof.
  intros Hcode Hfalse.
  assert (Hlt : (400 <=? code)%Z = false) by (apply Z.leb_gt; exact Hcode).
  split.
  - intros getenv post req key Hblank Hkey Hne call Hpost.
    unfold App.optimize. rewrite blank_test, Hblank, Hkey.
    destruct key as [|k key]; [contradiction|].
    fold (service_model getenv). fold call.
    rewrite Hpost, Hlt, Hfalse. reflexivity.
  - intros post dockerfile key model call Hpost.
    unfold Cli.optimize_dockerfile. fold call.
    rewrite Hpost, Hlt, Hfalse. reflexivity.
Qed.

Lemma X8_unusable_body_fails_witness :
  (200 < 400)%Z
  /\ truthy (first_content (PyList [PyStr (str "FROM a")])) = false
  /\ App.optimize (fun _ => Some (str "k"))
                  (fun _ => Response 200 []
                                     (inr (PyList [PyStr (str "FROM a")])))
                  {| App.dockerfile := str "FROM a" |} =
       (inl {| App.status_code := 502;
               App.detail := App.EMPTY_RESPONSE |},
        [App.request_of (str "k") (str "k") (str "FROM a")])
  /\ Cli.optimize_dockerfile
       (fun _ => Response 200 [] (inr (PyList [PyStr (str "FROM a")])))
       (str "FROM a") (str "k") (str "m") =
       (inl {| Cli.message := Cli.EMPTY_RESPONSE |},
        [Cli.request_of (str "k") (str "m") (str "FROM a")]).
Proof.
  split; [reflexivity|]. split; [reflexivity|].
  pose proof (X8_unusable_body_fails 200 []
                (PyList [PyStr (str "FROM a")]) eq_refl eq_refl)
    as (Happ & Hcli).
  split.
  - apply (Happ (fun _ => Some (str "k"))
                (fun _ => Response 200 []
                                   (inr (PyList [PyStr (str "FROM a")])))
                {| App.dockerfile := str "FROM a" |} (str "k"));
      [reflexivity | reflexivity | discriminate | reflexivity].
  - apply (Hcli (fun _ => Response 200 []
                                   (inr (PyList [PyStr (str "FROM a")])))
                (str "FROM a") (str "k") (str "m")).
    reflexivity.
Defined.

(** X9.  The outbound calls of the handler: none when the Dockerfile is
    blank or the key is unset or empty; otherwise exactly one, whatever the
    endpoint answers, with the key as bearer token, the model of
    [ABACUS_MODEL] or [gpt-5-mini], and the Dockerfile of the request. *)
Theorem X9_service_calls (getenv : pystr -> option pystr)
        (post : Post -> Reply) (req : App.OptimizeRequest) :
  snd (App.optimize getenv post req) =
    if forallb is_space (App.dockerfile req) then []
    else match getenv API_KEY with
         | Some (k :: key) =>
             [App.request_of (k :: key) (service_model getenv)
                             (App.dockerfile req)]
         | _ => []
         end.
Proof.
  unfold App.optimize. rewrite blank_test.
  destruct (forallb is_space (App.dockerfile req)); [reflexivity|].
  destruct (getenv API_KEY) as [[|k key]|]; try reflexivity.
  fold (service_model getenv).
  destruct (post _) as [exc|exc|code text json]; try reflexivity.
  destruct (400 <=? code)%Z; [reflexivity|].
  destruct json as [exc|data]; [reflexivity|].
  now destruct (negb (truthy (first_content data))).
Qed.

(** X10.  Every exception that the handler raises carries status 400, 500
    or 502, or the status of an upstream response that was 400 or more, with
    the text of that response as detail; so none has a status below 400. *)
Theorem X10_service_failure_statuses (getenv : pystr -> option pystr)
        (post : Post -> Reply) (req : App.OptimizeRequest)
        (e : App.HTTPException) :
  fst (App.optimize getenv post req) = inl e ->
  (App.status_code e = 400%Z \/ App.status_code e = 500%Z
   \/ App.status_code e = 502%Z
   \/ exists call json,
       post call = Response (App.status_code e) (App.detail e) json)
  /\ (400 <= App.status_code e)%Z.
Proof.
  unfold App.optimize.
  destruct (negb _ || _); [intros [= <-]; cbn; split; [auto | lia]|].
  destruct (getenv API_KEY) as [[|k key]|];
    try (intros [= <-]; cbn; split; [auto | lia]).
  destruct (post _) as [exc|exc|code text json] eqn:P;
    try (intros [= <-]; cbn; split; [auto | lia]).
  destruct (400 <=? code)%Z eqn:L.
  - intros [= <-]. cbn. apply Z.leb_le in L. split; [|exact L].
    right. right. right. eauto.
  - destruct json as [exc|data];
      [intros [= <-]; cbn; split; [auto | lia]|].
    destruct (negb (truthy (first_content data)));
      [intros [= <-]; cbn; split; [auto | lia] | discriminate].
Qed.

Lemma X10_service_failure_statuses_witness :
  fst (App.optimize (fun _ => Some (str "k"))
                    (fun _ => Response 429 (str "slow down") (inl []))
                    {| App.dockerfile := str "FROM a" |})
  = inl {| App.status_code := 429; App.detail := str "slow down" |}
  /\ (400 <= 429)%Z.
Proof.
  split; [reflexivity|].
  apply (X10_service_failure_statuses
           (fun _ => Some (str "k"))
           (fun _ => Response 429 (str "slow down") (inl []))
           {| App.dockerfile := str "FROM a" |}
           {| App.status_code := 429; App.detail := str "slow down" |}
           eq_refl).
Defined.

(** X11.  An upstream response with status 400 or more, whatever its body.
    The handler passes status and text on as they are.  The command-line
    tool raises its error about the status inside the [try] whose last
    handler catches every exception, so the message that leaves the
    function carries both prefixes: [Abacus request failed: API request
    failed: <status> - <text>]. *)
Theorem X11_upstream_error_status (code : Z) (text : pystr)
        (json : pystr + pyval) :
  (400 <= code)%Z ->
  (forall getenv post req key,
      forallb is_space (App.dockerfile req) = false ->
      getenv API_KEY = Some key -> key <> [] ->
      let call :=
        App.request_of key (service_model getenv) (App.dockerfile req) in
      post call = Response code text json ->
      App.optimize getenv post req =
        (inl {| App.status_code := code; App.detail := text |}, [call]))
  /\ (forall post dockerfile key model,
         let call := Cli.request_of key model dockerfile in
         post call = Response code text json ->
         Cli.optimize_dockerfile post dockerfile key model =
           (inl {| Cli.message :=
                     str "Abacus request failed: API request failed: "
                     ++ str_of_int code ++ str " - " ++ text |}, [call])).
Proof.
  intros Hcode. apply Z.leb_le in Hcode. split.
  - intros getenv post req key Hblank Hkey Hne call Hpost.
    unfold App.optimize. rewrite blank_test, Hblank, Hkey.
    destruct key as [|k key]; [contradiction|].
    fold (service_model getenv). fold call.
    now rewrite Hpost, Hcode.
  - intros post dockerfile key model call Hpost.
    unfold Cli.optimize_dockerfile. fold call.
    now rewrite Hpost, Hcode.
Qed.

Lemma X11_upstream_error_status_witness :
  (400 <= 503)%Z
  /\ App.optimize (fun _ => Some (str "k"))
                  (fun _ => Response 503 (str "busy") (inl []))
                  {| App.dockerfile := str "FROM a" |} =
       (inl {| App.status_code := 503; App.detail := str "busy" |},
        [App.request_of (str "k") (str "k") (str "FROM a")])
  /\ Cli.optimize_dockerfile
       (fun _ => Response 503 (str "busy") (inl []))
       (str "FROM a") (str "k") (str "m") =
       (inl {| Cli.message :=
                 str "Abacus request failed: API request failed: 503 - busy" |},
        [Cli.request_of (str "k") (str "m") (str "FROM a")]).
Proof.
  split; [discriminate|].
  pose proof (X11_upstream_error_status 503 (str "busy") (inl [])) as H.
  destruct H as (Happ & Hcli); [discriminate|].
  split.
  - apply (Happ (fun _ => Some (str "k"))
                (fun _ => Response 503 (str "busy") (inl []))
                {| App.dockerfile := str "FROM a" |} (str "k"));
      [reflexivity | reflexivity | discriminate | reflexivity].
  - apply (Hcli (fun _ => Response 503 (str "busy") (inl []))
                (str "FROM a") (str "k") (str "m")).
    reflexivity.
Defined.

(** X12.  When the call raises, or the body of a response below 400 cannot
    be decoded.  The handler answers 502 with the text of the exception
    behind [Abacus request failed: ], and does so for a timeout as for any
    other exception.  The command-line tool reports a timeout with a message
    of its own, which does not show the text of the exception, and every
    other exception like the handler does; the two messages are never
    equal. *)
Theorem X12_failed_call (exc : pystr) :
  (forall getenv post req key,
      forallb is_space (App.dockerfile req) = false ->
      getenv API_KEY = Some key -> key <> [] ->
      let call :=
        App.request_of key (service_model getenv) (App.dockerfile req) in
      post call = Timeout exc \/ post call = Failure exc
      \/ (exists code text,
             (code < 400)%Z /\ post call = Response code text (inl exc)) ->
      App.optimize getenv post req =
        (inl {| App.status_code := 502;
                App.detail := str "Abacus request failed: " ++ exc |},
         [call]))
  /\ (forall post dockerfile key model,
         let call := Cli.request_of key model dockerfile in
         (post call = Timeout exc ->
          Cli.optimize_dockerfile post dockerfile key model =
            (inl {| Cli.message :=
                      str "Request timeout - try with a simpler Dockerfile" |},
             [call]))
         /\ (post call = Failure exc
             \/ (exists code text,
                    (code < 400)%Z
                    /\ post call = Response code text (inl exc)) ->
             Cli.optimize_dockerfile post dockerfile key model =
               (inl {| Cli.message := str "Abacus request failed: " ++ exc |},
                [call])))
  /\ str "Request timeout - try with a simpler Dockerfile"
     <> str "Abacus request failed: " ++ exc.
Proof.
  split; [|split].
  - intros getenv post req key Hblank Hkey Hne call Hpost.
    unfold App.optimize. rewrite blank_test, Hblank, Hkey.
    destruct key as [|k key]; [contradiction|].
    fold (service_model getenv). fold call.
    destruct Hpost as [-> | [-> | (code & text & Hcode & ->)]];
      try reflexivity.
    apply Z.leb_gt in Hcode. now rewrite Hcode.
  - intros post dockerfile key model call. split.
    + intros Hpost. unfold Cli.optimize_dockerfile. fold call.
      now rewrite Hpost.
    + intros Hpost. unfold Cli.optimize_dockerfile. fold call.
      destruct Hpost as [-> | (code & text & Hcode & ->)]; [reflexivity|].
      apply Z.leb_gt in Hcode. now rewrite Hcode.
  - discriminate.
Qed.

Lemma X12_failed_call_witness :
  App.optimize (fun _ => Some (str "k")) (fun _ => Timeout (str "read"))
               {| App.dockerfile := str "FROM a" |} =
    (inl {| App.status_code := 502;
            App.detail := str "Abacus request failed: read" |},
     [App.request_of (str "k") (str "k") (str "FROM a")])
  /\ Cli.optimize_dockerfile (fun _ => Timeout (str "read"))
                             (str "FROM a") (str "k") (str "m") =
       (inl {| Cli.message :=
                 str "Request timeout - try with a simpler Dockerfile" |},
        [Cli.request_of (str "k") (str "m") (str "FROM a")])
  /\ Cli.optimize_dockerfile (fun _ => Failure (str "reset"))
                             (str "FROM a") (str "k") (str "m") =
       (inl {| Cli.message := str "Abacus request failed: reset" |},
        [Cli.request_of (str "k") (str "m") (str "FROM a")]).
Proof.
  split; [|split].
  - apply (proj1 (X12_failed_call (str "read"))
                 (fun _ => Some (str "k")) (fun _ => Timeout (str "read"))
                 {| App.dockerfile := str "FROM a" |} (str "k"));
      [reflexivity | reflexivity | discriminate | left; reflexivity].
  - apply (proj1 (proj2 (X12_failed_call (str "read")))
                 (fun _ => Timeout (str "read"))
                 (str "FROM a") (str "k") (str "m")).
    reflexivity.
  - apply (proj1 (proj2 (X12_failed_call (str "reset")))
                 (fun _ => Failure (str "reset"))
                 (str "FROM a") (str "k") (str "m")).
    left. reflexivity.
Defined.

(** X13.  The two entry points on the same reply.  When the endpoint
    answers below 400 with a body whose content is a non-empty string, the
    handler returns a response and the function of the command-line tool
    returns a Dockerfile; both hold the same Dockerfile, which is stripped,
    and each has made exactly one call. *)
Theorem X13_same_dockerfile_end_to_end (code : Z) (text raw : pystr)
        (data : pyval) :
  (code < 400)%Z ->
  first_content data = PyStr raw -> raw <> [] ->
  exists d s,
    strip d = d
    /\ (forall getenv post req key,
           forallb is_space (App.dockerfile req) = false ->
           getenv API_KEY = Some key -> key <> [] ->
           let call :=
             App.request_of key (service_model getenv) (App.dockerfile req) in
           post call = Response code text (inr data) ->
           App.optimize getenv post req =
             (inr (inr {| App.result := d; App.summary := s |}), [call]))
    /\ (forall post dockerfile key model,
           let call := Cli.request_of key model dockerfile in
           post call = Response code text (inr data) ->
           Cli.optimize_dockerfile post dockerfile key model =
             (inr (PyStr d), [call])).
Proof.
  intros Hcode Hcontent Hraw.
  apply Z.leb_gt in Hcode.
  assert (Htrue : negb (truthy (first_content data)) = false)
    by (rewrite Hcontent; now destruct raw).
  destruct (extract_stripped raw) as (d & s & Happ & Hcli & Hd & _).
  exists d, s. split; [exact Hd|]. split.
  - intros getenv post req key Hblank Hkey Hne call Hpost.
    unfold App.optimize. rewrite blank_test, Hblank, Hkey.
    destruct key as [|k key]; [contradiction|].
    fold (service_model getenv). fold call.
    now rewrite Hpost, Hcode, Htrue, Hcontent, Happ.
  - intros post dockerfile key model call Hpost.
    unfold Cli.optimize_dockerfile. fold call.
    now rewrite Hpost, Hcode, Htrue, Hcontent, Hcli.
Qed.

Lemma X13_same_dockerfile_end_to_end_witness :
  (200 < 400)%Z
  /\ first_content (completion (PyStr scenario_reply)) = PyStr scenario_reply
  /\ scenario_reply <> []
  /\ exists d s,
      strip d = d
      /\ (forall getenv post req key,
             forallb is_space (App.dockerfile req) = false ->
             getenv API_KEY = Some key -> key <> [] ->
             let call :=
               App.request_of key (service_model getenv)
                              (App.dockerfile req) in
             post call
             = Response 200 [] (inr (completion (PyStr scenario_reply))) ->
             App.optimize getenv post req =
               (inr (inr {| App.result := d; App.summary := s |}), [call]))
      /\ (forall post dockerfile key model,
             let call := Cli.request_of key model dockerfile in
             post call
             = Response 200 [] (inr (completion (PyStr scenario_reply))) ->
             Cli.optimize_dockerfile post dockerfile key model =
               (inr (PyStr d), [call])).
Proof.
  split; [reflexivity|]. split; [reflexivity|]. split; [discriminate|].
  apply (X13_same_dockerfile_end_to_end
           200 [] scenario_reply (completion (PyStr scenario_reply)));
    [reflexivity | reflexivity | discriminate].
Defined.

Lemma optimize_dockerfile_calls post dockerfile key model :
  snd (Cli.optimize_dockerfile post dockerfile key model)
  = [Cli.request_of key model dockerfile].
Proof.
  unfold Cli.optimize_dockerfile.
  destruct (post _) as [exc|exc|code text json]; try reflexivity.
  destruct (400 <=? code)%Z; [reflexivity|].
  destruct json as [exc|data]; [reflexivity|].
  now destruct (negb (truthy (first_content data))).
Qed.

(** X14.  How a run of [main] ends.  Either it exits with code 1, with
    nothing on the output stream, no result written to a file (the file may
    have been opened) and a diagnostic on the error stream; or it exits with code 0 after exactly one
    outbound call, and then either one value was printed and no file
    written, or nothing was printed and the file named by [--output] holds
    the result. *)
Theorem X14_main_outcomes (w : Cli.World) (args : Cli.Args) :
  let run := Cli.main w args in
  (Cli.exit_code run = 1%Z
   /\ Cli.stdout run = [] /\ Cli.written run = []
   /\ Cli.stderr run <> [])
  \/ (Cli.exit_code run = 0%Z
      /\ (exists call, Cli.posts run = [call])
      /\ ((exists v, Cli.stdout run = [v]
                     /\ Cli.written run = []
                     /\ Cli.nonempty (Cli.output args) = None)
          \/ (exists path text,
                 Cli.stdout run = []
                 /\ Cli.written run = [(path, text)]
                 /\ Cli.nonempty (Cli.output args) = Some path))).
Proof.
  unfold Cli.main.
  destruct (Cli.nonempty (Cli.or_else _ _)) as [key|];
    [|left; repeat split; discriminate].
  destruct (Cli.read_input w args) as [err|text];
    [left; repeat split; discriminate|].
  destruct (negb (truthy (PyStr (strip text))));
    [left; repeat split; discriminate|].
  pose proof (optimize_dockerfile_calls (Cli.post w) text key (Cli.model args))
    as Hcalls.
  destruct (Cli.optimize_dockerfile _ _ _ _) as [[e|optimized] calls];
    cbn [snd] in Hcalls; subst calls;
    [left; repeat split; discriminate|].
  destruct (Cli.nonempty (Cli.output args)) as [path|].
  - destruct (Cli.open_write w path) as [exc|];
      [left; repeat split; discriminate|].
    destruct optimized as [ |b|z|m e|text'|l|d];
      try (left; repeat split; discriminate).
    destruct (Cli.write w path text') as [exc|];
      [left; repeat split; discriminate|].
    right. cbn. repeat split; eauto.
    right. eauto.
  - destruct (Cli.print_stdout w optimized) as [exc|];
      [left; repeat split; discriminate|].
    right. cbn. repeat split; eauto.
Qed.

Lemma main_calls (w : Cli.World) (args : Cli.Args) :
  Cli.posts (Cli.main w args) =
    match key_of w args, Cli.read_input w args with
    | Some key, inr text =>
        if forallb is_space text then []
        else [Cli.request_of key (Cli.model args) text]
    | _, _ => []
    end.
Proof.
  unfold Cli.main, key_of.
  destruct (Cli.nonempty (Cli.or_else _ _)) as [key|]; [|reflexivity].
  destruct (Cli.read_input w args) as [err|text]; [reflexivity|].
  rewrite blank_test_cli.
  destruct (forallb is_space text); [reflexivity|].
  pose proof (optimize_dockerfile_calls (Cli.post w) text key (Cli.model args))
    as Hcalls.
  destruct (Cli.optimize_dockerfile _ _ _ _) as [[e|optimized] calls];
    cbn [snd] in Hcalls; subst calls; [reflexivity|].
  destruct (Cli.nonempty (Cli.output args)) as [path|];
    [|now destruct (Cli.print_stdout w optimized)].
  destruct (Cli.open_write w path); [reflexivity|].
  destruct optimized; try reflexivity.
  now destruct (Cli.write w path s).
Qed.

(** X15.  The outbound calls of [main]: none unless a key is there, the
    input could be read and the text is not blank; then exactly one, with
    that key, the model of [--model] and the text as it was read. *)
Theorem X15_main_calls (w : Cli.World) (args : Cli.Args) :
  Cli.posts (Cli.main w args) =
    match key_of w args, Cli.read_input w args with
    | Some key, inr text =>
        if forallb is_space text then []
        else [Cli.request_of key (Cli.model args) text]
    | _, _ => []
    end.
Proof. exact (main_calls w args). Qed.

(** X16.  A key given with [--api-key] wins over the environment: when it
    is not empty, every outbound call of [main] carries it as bearer token,
    whatever [ABACUS_API_KEY] holds; the environment is used only when the
    option is missing or empty. *)
Theorem X16_option_key_wins (w : Cli.World) (args : Cli.Args) (key : pystr) :
  Cli.api_key args = Some key -> key <> [] ->
  key_of w args = Some key
  /\ forall call, In call (Cli.posts (Cli.main w args)) ->
                  headers call = HEADERS key.
Proof.
  intros Hkey Hne.
  assert (K : key_of w args = Some key).
  { unfold key_of, Cli.or_else. rewrite Hkey.
    destruct key; [contradiction | reflexivity]. }
  split; [exact K|].
  intros call. rewrite main_calls, K.
  destruct (Cli.read_input w args) as [err|text]; [contradiction|].
  destruct (forallb is_space text); [contradiction|].
  intros [<- | []]. reflexivity.
Qed.

Lemma X16_option_key_wins_witness :
  Cli.api_key (bare_args (Some (str "from-option"))) = Some (str "from-option")
  /\ str "from-option" <> []
  /\ key_of {| Cli.getenv := fun _ => Some (str "from-env");
               Cli.post := fun _ => Failure [];
               Cli.read_file := fun _ => Cli.FileNotFound;
               Cli.read_stdin := Cli.StdinText (str "FROM a");
               Cli.open_write := fun _ => None;
               Cli.write := fun _ _ => None;
     Cli.print_stdout := fun _ => None |}
            (bare_args (Some (str "from-option")))
     = Some (str "from-option").
Proof.
  split; [reflexivity|]. split; [discriminate|].
  apply (X16_option_key_wins
           {| Cli.getenv := fun _ => Some (str "from-env");
              Cli.post := fun _ => Failure [];
              Cli.read_file := fun _ => Cli.FileNotFound;
              Cli.read_stdin := Cli.StdinText (str "FROM a");
              Cli.open_write := fun _ => None;
              Cli.write := fun _ _ => None;
     Cli.print_stdout := fun _ => None |}
           (bare_args (Some (str "from-option"))) (str "from-option"));
    [reflexivity | discriminate].
Defined.

(** X17.  A content that is truthy but no string (a number, a list of
    parts, a dict).  In both files the body of the [try] raises at its first
    statement, since only a string has [split]; the handler of the [try]
    then assigns the content itself to [dockerfile_content], and the summary
    stays empty.  The function of the command-line tool returns that value,
    after its one call. *)
Theorem X17_content_that_is_no_string (code : Z) (text : pystr)
        (data content : pyval) :
  (code < 400)%Z ->
  first_content data = content -> truthy content = true ->
  (forall s, content <> PyStr s) ->
  App.extract_body content App_init = (inl AttributeError, App_init)
  /\ App.extract content =
       {| App.dockerfile_content := content; App.summary_content := [] |}
  /\ Cli.extract_body content (PyStr []) = (inl AttributeError, PyStr [])
  /\ (forall post dockerfile key model,
         let call := Cli.request_of key model dockerfile in
         post call = Response code text (inr data) ->
         Cli.optimize_dockerfile post dockerfile key model =
           (inr content, [call])).
Proof.
  intros Hcode Hcontent Htrue Hnot.
  apply Z.leb_gt in Hcode.
  destruct (extract_not_str content Hnot) as [Happ Hcli].
  split; [|split; [|split]].
  - destruct content; try reflexivity. now destruct (Hnot s).
  - exact Happ.
  - destruct content; try reflexivity. now destruct (Hnot s).
  - intros post dockerfile key model call Hpost.
    unfold Cli.optimize_dockerfile. fold call.
    now rewrite Hpost, Hcode, Hcontent, Htrue, Hcli.
Qed.

Lemma parts_content_no_string s : parts_content <> PyStr s.
Proof. discriminate. Qed.

Lemma X17_content_that_is_no_string_witness :
  (200 < 400)%Z
  /\ first_content (completion parts_content) = parts_content
  /\ truthy parts_content = true
  /\ App.extract_body parts_content App_init = (inl AttributeError, App_init)
  /\ Cli.optimize_dockerfile
       (fun _ => Response 200 [] (inr (completion parts_content)))
       (str "FROM a") (str "k") (str "m")
     = (inr parts_content, [Cli.request_of (str "k") (str "m") (str "FROM a")]).
Proof.
  split; [reflexivity|]. split; [reflexivity|]. split; [reflexivity|].
  pose proof (X17_content_that_is_no_string
                200 [] (completion parts_content) parts_content
                eq_refl eq_refl eq_refl parts_content_no_string)
    as (Hbody & _ & _ & Hcli).
  split; [exact Hbody|].
  apply (Hcli (fun _ => Response 200 [] (inr (completion parts_content)))
              (str "FROM a") (str "k") (str "m")).
  reflexivity.
Defined.

(** X18.  A run of [main] that gets a reply.  With a key, an input that was
    read and is not blank, and an answer below 400 whose content is a
    non-empty string, [main] extracts the Dockerfile [d] and then: without
    [--output] it prints [d] and exits with 0, unless printing raises (the
    stream cannot encode the text, the pipe is closed), which ends in exit 1
    with [Error: ] and the text of the exception; with [--output] it writes
    [d] to that file, reports it on the error stream, prints nothing and
    exits with 0; and when the file cannot be opened or written it exits
    with 1 and the text of the exception. *)
Theorem X18_main_with_a_reply (w : Cli.World) (args : Cli.Args)
        (key text body raw : pystr) (code : Z) (data : pyval) :
  key_of w args = Some key ->
  Cli.read_input w args = inr text ->
  forallb is_space text = false ->
  let call := Cli.request_of key (Cli.model args) text in
  Cli.post w call = Response code body (inr data) ->
  (code < 400)%Z ->
  first_content data = PyStr raw -> raw <> [] ->
  exists d,
    Cli.extract (PyStr raw) = PyStr d
    /\ Cli.main w args =
       match Cli.nonempty (Cli.output args) with
       | None =>
           match Cli.print_stdout w (PyStr d) with
           | Some exc =>
               Cli.exit1 [Cli.OPTIMIZING; str "Error: " ++ exc] [call]
           | None =>
               {| Cli.exit_code := 0; Cli.stderr := [Cli.OPTIMIZING];
                  Cli.stdout := [PyStr d]; Cli.posts := [call];
                  Cli.written := [] |}
           end
       | Some path =>
           match
             match Cli.open_write w path with
             | Some exc => Some exc
             | None => Cli.write w path d
             end
           with
           | Some exc =>
               Cli.exit1 [Cli.OPTIMIZING;
                          str "Error writing to output file: " ++ exc] [call]
           | None =>
               {| Cli.exit_code := 0;
                  Cli.stderr := [Cli.OPTIMIZING;
                                 str "Optimized Dockerfile written to: "
                                 ++ path];
                  Cli.stdout := []; Cli.posts := [call];
                  Cli.written := [(path, d)] |}
           end
       end.
Proof.
  intros Hkey Hread Hblank call Hpost Hcode Hcontent Hraw.
  apply Z.leb_gt in Hcode.
  destruct (extract_stripped raw) as (d & s & _ & Hcli & _).
  exists d. split; [exact Hcli|].
  unfold Cli.main. unfold key_of in Hkey. rewrite Hkey, Hread.
  rewrite blank_test_cli, Hblank.
  unfold Cli.optimize_dockerfile. fold call.
  rewrite Hpost, Hcode, Hcontent, Hcli.
  destruct raw as [|c raw]; [contradiction|]. cbn [truthy negb].
  destruct (Cli.nonempty (Cli.output args)) as [path|]; [|reflexivity].
  destruct (Cli.open_write w path) as [exc|]; [reflexivity|].
  now destruct (Cli.write w path d).
Qed.

Lemma X18_main_with_a_reply_witness :
  key_of scenario_world (bare_args None) = Some (str "secret")
  /\ Cli.read_input scenario_world (bare_args None) = inr (str "FROM node")
  /\ forallb is_space (str "FROM node") = false
  /\ Cli.post scenario_world
              (Cli.request_of (str "secret") (str "gpt-5-mini")
                              (str "FROM node"))
     = Response 200 [] (inr (completion (PyStr scenario_reply)))
  /\ (200 < 400)%Z
  /\ first_content (completion (PyStr scenario_reply)) = PyStr scenario_reply
  /\ scenario_reply <> []
  /\ (exists d,
         Cli.extract (PyStr scenario_reply) = PyStr d
         /\ Cli.main scenario_world (bare_args None) =
              {| Cli.exit_code := 0; Cli.stderr := [Cli.OPTIMIZING];
                 Cli.stdout := [PyStr d];
                 Cli.posts := [Cli.request_of (str "secret") (str "gpt-5-mini")
                                              (str "FROM node")];
                 Cli.written := [] |})
  /\ (exists d,
         Cli.extract (PyStr scenario_reply) = PyStr d
         /\ Cli.main ascii_stream_world (bare_args None) =
              Cli.exit1 [Cli.OPTIMIZING; str "Error: codec can't encode"]
                        [Cli.request_of (str "secret") (str "gpt-5-mini")
                                        (str "FROM node")]).
Proof.
  repeat (split; [first [reflexivity | discriminate]|]).
  split.
  - apply (X18_main_with_a_reply
             scenario_world (bare_args None) (str "secret") (str "FROM node")
             [] scenario_reply 200 (completion (PyStr scenario_reply)));
      first [reflexivity | discriminate].
  - apply (X18_main_with_a_reply
             ascii_stream_world (bare_args None) (str "secret")
             (str "FROM node") [] scenario_reply 200
             (completion (PyStr scenario_reply)));
      first [reflexivity | discriminate].
Defined.


(* ===================================================================== *)
(** * The text that the FROM-line fallback returns *)
(* ===================================================================== *)

Lemma rstrip_decomp s :
  exists ws, s = rstrip s ++ ws /\ forallb is_space ws = true.
Proof.
  unfold rstrip. destruct (lstrip_decomp (rev s)) as (ws & E & Hws).
  exists (rev ws). split.
  - rewrite <- rev_app_distr, <- E. symmetry. apply rev_involutive.
  - rewrite forallb_forall in *. intros x Hx. apply Hws.
    now apply in_rev.
Qed.

Lemma rstrip_ends s :
  rstrip s = [] \/ exists u x, rstrip s = u ++ [x] /\ is_space x = false.
Proof.
  unfold rstrip. pose proof (lstrip_head (rev s)) as H.
  destruct (lstrip (rev s)) as [|x t]; [now left|].
  right. exists (rev t), x. now split.
Qed.

(** Text appended to a text that is not blank leaves what the text is
    stripped to in front. *)
Lemma strip_app_keeps l z :
  strip l <> [] -> exists z', strip (l ++ z) = strip l ++ z'.
Proof.
  unfold strip. intros Hne.
  destruct (rstrip_decomp (lstrip l)) as (ws & E & Hws).
  destruct (rstrip_ends (lstrip l)) as [H | (u & x & H & Hx)];
    [contradiction|].
  assert (L : lstrip (l ++ z) = lstrip l ++ z).
  { pose proof (lstrip_head l) as Hh.
    destruct (lstrip_decomp l) as (ws' & El & Hws').
    destruct (lstrip l) as [|c t] eqn:Ll.
    - cbv in H. destruct u; discriminate H.
    - rewrite El at 1. rewrite <- app_assoc. simpl app.
      rewrite lstrip_app_stop by exact Hh.
      replace (lstrip ws') with (@nil N); [reflexivity|].
      clear El. induction ws' as [|y ws' IH]; [reflexivity|].
      simpl in *. apply andb_true_iff in Hws'. destruct Hws' as [-> ?].
      now apply IH. }
  rewrite L. remember (rstrip (lstrip l)) as u0 eqn:U. clear U.
  rewrite E, H, <- !app_assoc. simpl app.
  rewrite rstrip_app_stop by exact Hx.
  exists (rstrip (ws ++ z)). now rewrite <- app_assoc.
Qed.

Lemma is_from_prefix_app u z :
  is_from_prefix u = true -> is_from_prefix (u ++ z) = true.
Proof.
  destruct u as [|a [|b [|c [|d [|e u]]]]]; try discriminate. trivial.
Qed.

Lemma is_from_prefix_nonempty u : is_from_prefix u = true -> u <> [].
Proof. destruct u; discriminate. Qed.

Lemma next_index_found (A : Type) (p : A -> bool) L i :
  next_index p L = Some i ->
  exists l rest, skipn i L = l :: rest /\ p l = true.
Proof.
  revert i. induction L as [|x L IH]; intros i H; [discriminate|].
  cbn [next_index] in H. destruct (p x) eqn:Px.
  - injection H as <-. now exists x, L.
  - destruct (next_index p L) as [j|]; [|discriminate].
    injection H as <-. now apply IH.
Qed.

Lemma tail_from_begins L i :
  next_index is_from_line L = Some i ->
  is_from_prefix (tail_from L) = true.
Proof.
  intros H. unfold tail_from. rewrite H.
  destruct (next_index_found _ _ _ _ H) as (l & rest & -> & Hl).
  rewrite is_from_line_prefix in Hl.
  assert (E : exists z, join [LF] (l :: rest) = l ++ z).
  { destruct rest as [|r rest]; [exists []; now rewrite app_nil_r|].
    now exists ([LF] ++ join [LF] (r :: rest)). }
  destruct E as (z & ->).
  destruct (strip_app_keeps l z (is_from_prefix_nonempty _ Hl)) as (z' & ->).
  now apply is_from_prefix_app.
Qed.

(** X19.  When the pattern finds no block in the Dockerfile section but a
    line of the section is a FROM line, the Dockerfile that both entry
    points return begins with that instruction: the letters f, r, o, m in
    either case and a space.  What stood before the first FROM line is
    gone, with or without a summary behind the section. *)
Theorem X19_fallback_begins_with_from (raw : pystr) (start_idx : nat) :
  search true FENCE_RE (section_of raw) = None ->
  next_index is_from_line (splitlines (section_of raw)) = Some start_idx ->
  exists d,
    App.dockerfile_content (App.extract (PyStr raw)) = PyStr d
    /\ Cli.extract (PyStr raw) = PyStr d
    /\ d = strip (join [LF] (skipn start_idx (splitlines (section_of raw))))
    /\ is_from_prefix d = true.
Proof.
  intros Hre Hfrom. rewrite search_fence_re in Hre.
  exists (from_section (section_of raw)).
  assert (E : from_section (section_of raw)
              = tail_from (splitlines (section_of raw))).
  { unfold from_section, from_lines.
    now destruct (fence_search (section_of raw)). }
  assert (Hcli : Cli.extract (PyStr raw)
                 = PyStr (from_section (section_of raw))).
  { rewrite Cli_extract_str. fold (section_of raw).
    now rewrite from_section_strip. }
  split; [now rewrite <- extract_agree|]. split; [exact Hcli|]. split.
  - rewrite E. unfold tail_from. now rewrite Hfrom.
  - rewrite E. now apply (tail_from_begins _ start_idx).
Qed.

Lemma X19_fallback_begins_with_from_witness :
  search true FENCE_RE
         (section_of (str "Here: " ++ [LF] ++ str " From a" ++ [LF]
                      ++ SUMMARY_SEP ++ str "x")) = None
  /\ next_index is_from_line
       (splitlines (section_of (str "Here: " ++ [LF] ++ str " From a" ++ [LF]
                                ++ SUMMARY_SEP ++ str "x"))) = Some 1%nat
  /\ exists d,
      App.dockerfile_content
        (App.extract (PyStr (str "Here: " ++ [LF] ++ str " From a" ++ [LF]
                             ++ SUMMARY_SEP ++ str "x"))) = PyStr d
      /\ Cli.extract (PyStr (str "Here: " ++ [LF] ++ str " From a" ++ [LF]
                             ++ SUMMARY_SEP ++ str "x")) = PyStr d
      /\ d = strip (join [LF]
                      (skipn 1 (splitlines
                                  (section_of (str "Here: " ++ [LF]
                                               ++ str " From a" ++ [LF]
                                               ++ SUMMARY_SEP ++ str "x")))))
      /\ is_from_prefix d = true.
Proof.
  split; [reflexivity|]. split; [reflexivity|].
  apply (X19_fallback_begins_with_from
           (str "Here: " ++ [LF] ++ str " From a" ++ [LF]
            ++ SUMMARY_SEP ++ str "x") 1%nat); reflexivity.
Defined.
